(** * intel_qsv.py: batch watermarking through ffmpeg (Intel QSV)

    A shallow embedding of [src/intel_qsv.py] and the properties of its
    validators, its command builder, its file discovery and its dispatch loop.

    Python values are modelled as follows.
    - [int] is [Z]; [str(n)] on an int is the decimal numeral [str_int].
    - [str] is [string] (a sequence of bytes; the messages are UTF-8).
    - a list of strings is [list string]; [l.index(x)] and [l[i] = v] raise
      as in Python ([ValueError], [IndexError]).
    - [pathlib.Path] is a record of an anchor and the list of components
      (the POSIX flavour, compared case-sensitively; [with_name] refuses a
      name that holds a separator, as pathlib does from Python 3.12 on).
    - an exception is a value of [exn]; fallible pure code returns [result].
    - [main] runs in a world made of the file system and the trace of what
      the process printed and spawned; making a directory and starting the
      encoder can fail with an exception. *)

From Stdlib Require Import ZArith List Bool Ascii String Lia DecimalString.
From Stdlib Require Import DecimalPos.
Import ListNotations.
Open Scope string_scope.
Open Scope list_scope.

Infix "+++" := String.append (at level 60, right associativity).

(** ** Exceptions and fallible results *)

Inductive exn : Type :=
| ValueError (msg : string)
| FileNotFoundError (msg : string)
| IndexError (msg : string)
| FileExistsError (msg : string)
| NotADirectoryError (msg : string)
| OSError (msg : string).

Inductive result (A : Type) : Type :=
| Ok (a : A)
| Raise (e : exn).

Arguments Ok {A} a.
Arguments Raise {A} e.

Definition rbind {A B} (r : result A) (k : A -> result B) : result B :=
  match r with
  | Ok a => k a
  | Raise e => Raise e
  end.

Notation "'let!' x ':=' r 'in' k" := (rbind r (fun x => k))
  (at level 10, x name, r at level 100, k at level 200).

(** [str(e)] of an exception built from one message. *)
Definition exn_message (e : exn) : string :=
  match e with
  | ValueError m => m
  | FileNotFoundError m => m
  | IndexError m => m
  | FileExistsError m => m
  | NotADirectoryError m => m
  | OSError m => m
  end.

Definition rmap {A B} (f : A -> B) (r : result A) : result B :=
  match r with
  | Ok a => Ok (f a)
  | Raise e => Raise e
  end.

(** ** Python built-ins used by the script *)

(** [str(n)] for an int. *)
Definition str_int (n : Z) : string := NilZero.string_of_int (Z.to_int n).

(** [str(n)] for a length. *)
Definition str_nat (n : nat) : string := str_int (Z.of_nat n).

(** [l.index(x)]: the position of the first element equal to [x]. *)
Fixpoint list_index_from (l : list string) (x : string) (i : Z) : result Z :=
  match l with
  | [] => Raise (ValueError (x +++ " is not in list"))
  | y :: l' => if String.eqb y x then Ok i else list_index_from l' x (i + 1)
  end.

Definition list_index (l : list string) (x : string) : result Z :=
  list_index_from l x 0.

Fixpoint replace_nth (l : list string) (n : nat) (v : string) : list string :=
  match l, n with
  | [], _ => []
  | _ :: l', O => v :: l'
  | y :: l', S n' => y :: replace_nth l' n' v
  end.

(** [l[i] = v]: a negative index counts from the end, an index out of range
    raises. *)
Definition set_item (l : list string) (i : Z) (v : string) : result (list string) :=
  let len := Z.of_nat (List.length l) in
  if ((0 <=? i) && (i <? len))%Z then Ok (replace_nth l (Z.to_nat i) v)
  else if ((- len <=? i) && (i <? 0))%Z then Ok (replace_nth l (Z.to_nat (len + i)) v)
  else Raise (IndexError "list assignment index out of range").

(** [s.replace(old, new)] for one-character [old] and [new]. *)
Fixpoint str_replace (old new : ascii) (s : string) : string :=
  match s with
  | EmptyString => EmptyString
  | String c s' =>
      String (if Ascii.eqb c old then new else c) (str_replace old new s')
  end.

(** [c in s]. *)
Fixpoint str_contains (c : ascii) (s : string) : bool :=
  match s with
  | EmptyString => false
  | String d s' => Ascii.eqb d c || str_contains c s'
  end.

(** [s.rfind(c)]: the last position of [c], or -1. *)
Fixpoint rfind_from (c : ascii) (s : string) (i : Z) : Z :=
  match s with
  | EmptyString => (-1)%Z
  | String d s' =>
      let r := rfind_from c s' (i + 1) in
      if (0 <=? r)%Z then r else if Ascii.eqb d c then i else (-1)%Z
  end.

Definition rfind (c : ascii) (s : string) : Z := rfind_from c s 0.

(** The slices [s[:n]] and [s[n:]]. *)
Fixpoint str_take (n : nat) (s : string) : string :=
  match n, s with
  | S n', String c s' => String c (str_take n' s')
  | _, _ => EmptyString
  end.

Fixpoint str_drop (n : nat) (s : string) : string :=
  match n, s with
  | S n', String _ s' => str_drop n' s'
  | _, _ => s
  end.

(** [s.split(sep)]. *)
Fixpoint str_split (sep : ascii) (s : string) : list string :=
  match s with
  | EmptyString => [EmptyString]
  | String c s' =>
      if Ascii.eqb c sep then EmptyString :: str_split sep s'
      else match str_split sep s' with
           | [] => [String c EmptyString]
           | w :: ws => String c w :: ws
           end
  end.

(** [s.lstrip(c)]. *)
Fixpoint str_lstrip (c : ascii) (s : string) : string :=
  match s with
  | String d s' => if Ascii.eqb d c then str_lstrip c s' else s
  | EmptyString => EmptyString
  end.

(** ** pathlib paths, POSIX flavour *)

Definition sep : ascii := "/"%char.

Record Path : Type := mkPath { anchor : string; parts : list string }.

(** The root of a path string: two leading slashes (exactly) are kept, any
    other number collapses to one. *)
Definition splitroot (s : string) : string * string :=
  match s with
  | String c _ =>
      if Ascii.eqb c sep then
        let stripped := str_lstrip sep s in
        if Nat.eqb (String.length s - String.length stripped) 2
        then ("//", stripped) else ("/", stripped)
      else ("", s)
  | EmptyString => ("", s)
  end.

Definition keep_part (x : string) : bool :=
  negb (String.eqb x "") && negb (String.eqb x ".").

(** [Path(s)]. *)
Definition Path_of (s : string) : Path :=
  let (root, rel) := splitroot s in
  mkPath root (filter keep_part (str_split sep rel)).

(** [str(p)]. *)
Definition str (p : Path) : string :=
  let s := anchor p +++ String.concat "/" (parts p) in
  if String.eqb s "" then "." else s.

(** [p.name]. *)
Definition name (p : Path) : string := last (parts p) "".

(** [p.suffix] and [p.stem]: the name is cut at its last dot, unless that dot
    is its first or its last character. *)
Definition has_suffix (nm : string) : bool :=
  let i := rfind "."%char nm in
  ((0 <? i) && (i <? Z.of_nat (String.length nm) - 1))%Z.

Definition name_suffix (nm : string) : string :=
  if has_suffix nm then str_drop (Z.to_nat (rfind "."%char nm)) nm else "".

Definition name_stem (nm : string) : string :=
  if has_suffix nm then str_take (Z.to_nat (rfind "."%char nm)) nm else nm.

Definition suffix (p : Path) : string := name_suffix (name p).

Definition stem (p : Path) : string := name_stem (name p).

(** [p.parent]. *)
Definition parent (p : Path) : Path := mkPath (anchor p) (removelast (parts p)).

(** [p / q]. *)
Definition joinpath (p q : Path) : Path :=
  if String.eqb (anchor q) "" then mkPath (anchor p) (parts p ++ parts q) else q.

Infix "//" := joinpath (at level 40, left associativity).

Fixpoint strip_prefix (pre l : list string) : option (list string) :=
  match pre, l with
  | [], _ => Some l
  | x :: pre', y :: l' => if String.eqb x y then strip_prefix pre' l' else None
  | _ :: _, [] => None
  end.

(** The texts of the errors of pathlib, as it prints them for paths and names
    made of plain characters. *)
Definition not_in_subpath (p other : Path) : string :=
  "'" +++ str p +++ "' is not in the subpath of '" +++ str other
    +++ "' OR one path is relative and the other is absolute.".

Definition empty_name (p : Path) : string :=
  "PosixPath('" +++ str p +++ "') has an empty name".

Definition invalid_name (nm : string) : string := "Invalid name '" +++ nm +++ "'".

(** [p.relative_to(other)]. *)
Definition relative_to (p other : Path) : result Path :=
  if String.eqb (anchor p) (anchor other) then
    match strip_prefix (parts other) (parts p) with
    | Some rest => Ok (mkPath "" rest)
    | None => Raise (ValueError (not_in_subpath p other))
    end
  else Raise (ValueError (not_in_subpath p other)).

(** A name is accepted by [with_name] when it is not empty, is not the single
    dot and holds no separator. This is the rule of Python 3.12 and later;
    Python 3.11 and earlier parse the name and also accept one that reduces
    to a single component, such as [x/.]. The two rules agree on every name
    without separator. *)
Definition valid_name (nm : string) : bool :=
  negb (String.eqb nm "") && negb (String.eqb nm ".") && negb (str_contains sep nm).

(** [p.with_name(nm)]. *)
Definition with_name (p : Path) (nm : string) : result Path :=
  if String.eqb (name p) "" then Raise (ValueError (empty_name p))
  else if valid_name nm then Ok (mkPath (anchor p) (removelast (parts p) ++ [nm]))
  else Raise (ValueError (invalid_name nm)).

(** ** The validators (lines 6-16) *)

Definition validate_video_quality (video_quality : Z) : result unit :=
  if negb ((0 <=? video_quality) && (video_quality <=? 51))%Z
  then Raise (ValueError "视频质量参数无效，必须在 0 到 51 之间")
  else Ok tt.

Definition validate_video_codec (video_codec : string) : result unit :=
  if negb (existsb (String.eqb video_codec) ["hevc_qsv"; "h264_qsv"])
  then Raise (ValueError "视频编码参数无效，仅支持 hevc_qsv 和 h264_qsv")
  else Ok tt.

(** ** The command builder (lines 21-42) *)

Definition drawtext_filter (escaped_font_file font_color : string) (font_size : Z) : string :=
  "drawtext=fontcolor=" +++ font_color +++ ":fontsize=" +++ str_int font_size
    +++ ":fontfile='" +++ escaped_font_file +++ "':text='PINSE.CLUB':"
    +++ "x='if(eq(mod(n\,2000)\,0)\,rand(0\,(w-text_w))\,x)':"
    +++ "y='if(eq(mod(n\,2000)\,0)\,rand(0\,(h-text_h))\,y)':"
    +++ "enable='lt(mod(n\,2000)\,1200)'".

(** The list literal of lines 22-34. *)
Definition initial_command (file output_file_name : Path)
    (escaped_font_file font_color : string) (font_size : Z)
    (video_codec : string) (video_quality : Z) : list string :=
  [ "ffmpeg";
    "-hwaccel_output_format"; "qsv";
    "-i"; str file;
    "-vf"; drawtext_filter escaped_font_file font_color font_size;
    "-c:v"; video_codec;
    "-global_quality"; str_int video_quality;
    "-c:a"; "copy";
    "-y"; str output_file_name ].

(** [bitrate] is [None] when the option is not given; [if bitrate:] holds for
    a string that is not empty. *)
Definition build_ffmpeg_command (file output_file_name : Path)
    (escaped_font_file font_color : string) (font_size : Z)
    (video_codec : string) (video_quality : Z) (bitrate : option string)
  : result (list string) :=
  let ffmpeg_command :=
    initial_command file output_file_name escaped_font_file font_color font_size
      video_codec video_quality in
  match bitrate with
  | Some b =>
      if negb (String.eqb b "") then
        let! crf_index := list_index ffmpeg_command "-global_quality" in
        if (0 <=? crf_index)%Z then
          let! c1 := set_item ffmpeg_command crf_index "-b:v" in
          let! c2 := set_item c1 (crf_index + 1) b in
          Ok c2
        else Ok ffmpeg_command
      else Ok ffmpeg_command
  | None => Ok ffmpeg_command
  end.

(** ** Output path of one file (lines 89-92) *)

Definition output_file_name_of (input_directory output_directory : Path)
    (output_suffix : string) (file : Path) : result Path :=
  let! relative_path := relative_to file input_directory in
  let! renamed :=
    with_name relative_path
      (stem relative_path +++ "_" +++ output_suffix +++ suffix relative_path) in
  Ok (output_directory // renamed).

(** Line 84: the font path handed to the filter. *)
Definition escaped_font_file_of (font_file : Path) : string :=
  str_replace "\"%char "/"%char (str font_file).

(** ** Glob patterns of one component

    The match is case-sensitive; [*] stands for any run of characters and [?]
    for any one character. None of the patterns of the script uses a bracket
    class or a separator, and those are not modelled. *)

Fixpoint glob_match (pat nm : string) : bool :=
  match pat with
  | EmptyString => match nm with EmptyString => true | String _ _ => false end
  | String p pat' =>
      if Ascii.eqb p "*" then
        (fix star (s : string) : bool :=
           glob_match pat' s
           || match s with
              | EmptyString => false
              | String _ s' => star s'
              end) nm
      else
        match nm with
        | EmptyString => false
        | String c nm' => (Ascii.eqb p "?" || Ascii.eqb p c) && glob_match pat' nm'
        end
  end.

(** A pattern without wildcard. *)
Fixpoint literal (pat : string) : bool :=
  match pat with
  | EmptyString => true
  | String c pat' => negb (Ascii.eqb c "*") && negb (Ascii.eqb c "?") && literal pat'
  end.

(** ** The operating system seen by the script

    [listing fs d] is every entry below directory [d], each as its components
    relative to [d], in the order the traversal meets them; [mkdir_parents]
    is [mkdir(parents=True, exist_ok=True)], which raises when the directory
    cannot be made; [spawn] starts a child process, raises when it cannot be
    started, and otherwise runs it to completion and gives its exit
    status. *)

Class OS : Type := {
  FS : Type;
  path_exists : FS -> Path -> bool;
  mkdir_parents : FS -> Path -> result FS;
  listing : FS -> Path -> list (list string);
  spawn : FS -> list string -> result (FS * Z)
}.

Inductive event : Type :=
| Printed (line : string)
| Spawned (argv : list string).

Definition spawned (tr : list event) : list (list string) :=
  flat_map (fun e => match e with Spawned argv => [argv] | Printed _ => [] end) tr.

(** [enumerate(l, start)]. *)
Fixpoint enumerate {A} (l : list A) (start : Z) : list (Z * A) :=
  match l with
  | [] => []
  | x :: l' => (start, x) :: enumerate l' (start + 1)
  end.

Definition video_extensions : list string :=
  ["*.mp4"; "*.avi"; "*.mkv"; "*.mov"; "*.wmv"; "*.flv"; "*.ts"; "*.vob";
   "*.webm"; "*.3gp"; "*.m4v"; "*.rmvb"].

(** The parsed command line. *)
Record Args : Type := mkArgs {
  input_directory : string;
  output_directory : string;
  output_suffix : string;
  video_quality : Z;
  video_codec : string;
  font_size : Z;
  font_color : string;
  font_file : string;
  bitrate : option string
}.

Section Script.

Context {os : OS}.

Record World : Type := mkWorld { fs : FS; trace : list event }.

(** How a computation ends: normally, by [exit(code)], or by an exception
    that nothing caught. *)
Inductive step (A : Type) : Type :=
| Next (a : A) (w : World)
| Exit (code : Z) (w : World)
| Throw (e : exn) (w : World).

Arguments Next {A} a w.
Arguments Exit {A} code w.
Arguments Throw {A} e w.

Definition M (A : Type) : Type := World -> step A.

Definition ret {A} (a : A) : M A := fun w => Next a w.

Definition bind {A B} (m : M A) (k : A -> M B) : M B :=
  fun w =>
    match m w with
    | Next a w' => k a w'
    | Exit c w' => Exit c w'
    | Throw e w' => Throw e w'
    end.

Notation "x <- m ;; k" := (bind m (fun x => k))
  (at level 100, m at next level, right associativity).
Notation "m ;; k" := (bind m (fun _ => k))
  (at level 100, right associativity).

Definition lift {A} (r : result A) : M A :=
  fun w => match r with Ok a => Next a w | Raise e => Throw e w end.

Definition print (s : string) : M unit :=
  fun w => Next tt (mkWorld (fs w) (trace w ++ [Printed s])).

Definition exit {A} (code : Z) : M A := fun w => Exit code w.

(** [except (ValueError, FileNotFoundError) as e]. *)
Definition caught (e : exn) : bool :=
  match e with
  | ValueError _ | FileNotFoundError _ => true
  | IndexError _ | FileExistsError _ | NotADirectoryError _ | OSError _ => false
  end.

Definition try_except {A} (body : M A) (handler : exn -> M A) : M A :=
  fun w =>
    match body w with
    | Throw e w' => if caught e then handler e w' else Throw e w'
    | r => r
    end.

Fixpoint for_each {A} (l : list A) (body : A -> M unit) : M unit :=
  match l with
  | [] => ret tt
  | x :: l' => body x ;; for_each l' body
  end.

(** Lines 14-19. *)
Definition ensure_font_file_exists (font_file : Path) : M unit :=
  fun w =>
    if negb (path_exists (fs w) font_file)
    then Throw (FileNotFoundError ("字体文件不存在：" +++ str font_file)) w
    else Next tt w.

Definition mkdir (p : Path) : M unit :=
  fun w =>
    match mkdir_parents (fs w) p with
    | Ok fs' => Next tt (mkWorld fs' (trace w))
    | Raise e => Throw e w
    end.

Definition ensure_output_directory_exists (output_directory : Path) : M unit :=
  mkdir output_directory.

(** [subprocess.run(argv)]: the completed process is dropped; a process that
    cannot be started raises. *)
Definition subprocess_run (argv : list string) : M unit :=
  fun w =>
    match spawn (fs w) argv with
    | Ok (fs', _) => Next tt (mkWorld fs' (trace w ++ [Spawned argv]))
    | Raise e => Throw e w
    end.

(** [d.rglob(pat)]: the entries below [d] whose name matches [pat]. *)
Definition rglob (f : FS) (d : Path) (pat : string) : list Path :=
  map (fun rel => d // mkPath "" rel)
      (filter (fun rel => glob_match pat (last rel "")) (listing f d)).

(** Lines 44-48. *)
Definition check_video_files (f : FS) (input_directory : Path)
    (video_extensions : list string) : list Path :=
  flat_map (fun ext => rglob f input_directory ext) video_extensions.

(** The name starts with a dot, as [.mp4] does. *)
Definition starts_with_dot (nm : string) : bool :=
  match nm with
  | String c _ => Ascii.eqb c "."
  | EmptyString => false
  end.

(** No entry below [d] has a separator in its name (as on any real file
    system). *)
Definition names_without_separator (f : FS) (d : Path) : bool :=
  forallb (fun rel => negb (str_contains sep (last rel ""))) (listing f d).

Definition progress_line (idx : Z) (total : nat) (file output_file_name : Path) : string :=
  "[" +++ str_int idx +++ "/" +++ str_nat total +++ "] 正在处理文件: "
    +++ str file +++ " -> " +++ str output_file_name.

(** The body of the loop, lines 88-104. *)
Definition process_file (input_directory output_directory : Path)
    (output_suffix escaped_font_file font_color : string) (font_size : Z)
    (video_codec : string) (video_quality : Z) (bitrate : option string)
    (total : nat) (item : Z * Path) : M unit :=
  let (idx, file) := item in
  output_file_name <-
    lift (output_file_name_of input_directory output_directory output_suffix file) ;;
  mkdir (parent output_file_name) ;;
  ffmpeg_command <-
    lift (build_ffmpeg_command file output_file_name escaped_font_file font_color
            font_size video_codec video_quality bitrate) ;;
  print (progress_line idx total file output_file_name) ;;
  subprocess_run ffmpeg_command.

(** No call of the operating system fails in the loop over [files] started
    on the file system [f]: each directory is made and each process is
    started. A file whose output name is refused ends the loop before any
    such call. *)
Fixpoint os_calls_succeed (input_directory output_directory : Path)
    (output_suffix escaped_font_file font_color : string) (font_size : Z)
    (video_codec : string) (video_quality : Z) (bitrate : option string)
    (f : FS) (files : list Path) : bool :=
  match files with
  | [] => true
  | file :: rest =>
      match output_file_name_of input_directory output_directory output_suffix file with
      | Raise _ => true
      | Ok output_file_name =>
          match mkdir_parents f (parent output_file_name) with
          | Raise _ => false
          | Ok f1 =>
              match build_ffmpeg_command file output_file_name escaped_font_file
                      font_color font_size video_codec video_quality bitrate with
              | Raise _ => true
              | Ok ffmpeg_command =>
                  match spawn f1 ffmpeg_command with
                  | Raise _ => false
                  | Ok (f2, _) =>
                      os_calls_succeed input_directory output_directory output_suffix
                        escaped_font_file font_color font_size video_codec
                        video_quality bitrate f2 rest
                  end
              end
          end
      end
  end.

(** Lines 50-106. *)
Definition main (args : Args) : M unit :=
  let input_directory := Path_of args.(input_directory) in
  let output_directory := Path_of args.(output_directory) in
  let output_suffix := args.(output_suffix) in
  let video_quality := args.(video_quality) in
  let video_codec := args.(video_codec) in
  let font_size := args.(font_size) in
  let font_color := args.(font_color) in
  let font_file := Path_of args.(font_file) in
  let bitrate := args.(bitrate) in
  try_except
    (lift (validate_video_quality video_quality) ;;
     lift (validate_video_codec video_codec) ;;
     ensure_font_file_exists font_file ;;
     ensure_output_directory_exists output_directory)
    (fun e => print (exn_message e) ;; exit 1) ;;
  video_files <-
    (fun w => Next (check_video_files (fs w) input_directory video_extensions) w) ;;
  (if Nat.eqb (List.length video_files) 0 then
     print ("输入目录 '" +++ str input_directory +++ "' 中没有找到任何视频文件") ;;
     exit 1
   else ret tt) ;;
  print ("在输入目录 '" +++ str input_directory +++ "' 中找到 "
           +++ str_nat (List.length video_files) +++ " 个视频文件") ;;
  let escaped_font_file := escaped_font_file_of font_file in
  for_each (enumerate video_files 1)
    (process_file input_directory output_directory output_suffix escaped_font_file
       font_color font_size video_codec video_quality bitrate
       (List.length video_files)) ;;
  print "所有视频文件处理完成".

(** The status the process ends with. *)
Definition exit_status {A} (s : step A) : Z :=
  match s with
  | Next _ _ => 0
  | Exit code _ => code
  | Throw _ _ => 1
  end.

Definition final {A} (s : step A) : World :=
  match s with
  | Next _ w | Exit _ w | Throw _ w => w
  end.

End Script.

Arguments Next {os A} a w.
Arguments Exit {os A} code w.
Arguments Throw {os A} e w.

(** The trace of the loop of lines 87-104 over a list of files, from a given
    index: for each file in turn, the progress line with its index, then one
    call of the command built for it. *)
Inductive dispatched (input_directory output_directory : Path)
    (output_suffix escaped_font_file font_color : string) (font_size : Z)
    (video_codec : string) (video_quality : Z) (bitrate : option string)
    (total : nat) : Z -> list Path -> list event -> Prop :=
| dispatched_nil idx :
    dispatched input_directory output_directory output_suffix escaped_font_file
      font_color font_size video_codec video_quality bitrate total idx [] []
| dispatched_cons idx file files output_file_name ffmpeg_command tr :
    output_file_name_of input_directory output_directory output_suffix file
    = Ok output_file_name ->
    build_ffmpeg_command file output_file_name escaped_font_file font_color font_size
      video_codec video_quality bitrate = Ok ffmpeg_command ->
    dispatched input_directory output_directory output_suffix escaped_font_file
      font_color font_size video_codec video_quality bitrate total (idx + 1) files tr ->
    dispatched input_directory output_directory output_suffix escaped_font_file
      font_color font_size video_codec video_quality bitrate total idx (file :: files)
      (Printed (progress_line idx total file output_file_name)
         :: Spawned ffmpeg_command :: tr).

(** ** A file system made of a tree

    Paths are looked up component by component from the top of the tree. *)

#[warnings="-register-all"]
Inductive node : Type :=
| File
| Dir (entries : list (string * node)).

(** Induction over a tree and the entries of its directories. *)
Section node_induction.
Variable P : node -> Prop.
Hypothesis P_File : P File.
Hypothesis P_Dir : forall es, Forall (fun e => P (snd e)) es -> P (Dir es).

Fixpoint node_induction (t : node) : P t :=
  match t with
  | File => P_File
  | Dir es =>
      P_Dir es
        ((fix all (l : list (string * node)) : Forall (fun e => P (snd e)) l :=
            match l with
            | [] => Forall_nil _
            | e :: l' =>
                Forall_cons e
                  (match e as e0 return P (snd e0) with
                   | (_, c) => node_induction c
                   end)
                  (all l')
            end) es)
  end.
End node_induction.

Fixpoint find_entry (nm : string) (es : list (string * node)) : option node :=
  match es with
  | [] => None
  | (n, c) :: es' => if String.eqb n nm then Some c else find_entry nm es'
  end.

Fixpoint lookup (p : list string) (t : node) : option node :=
  match p with
  | [] => Some t
  | c :: p' =>
      match t with
      | Dir es =>
          match find_entry c es with
          | Some t' => lookup p' t'
          | None => None
          end
      | File => None
      end
  end.

(** Every entry below a directory: the entries of the directory itself, then
    those of each sub-directory in turn. *)
Fixpoint walk (t : node) : list (list string) :=
  match t with
  | File => []
  | Dir es =>
      map (fun e : string * node => [fst e]) es
      ++ flat_map (fun e : string * node => let (n, c) := e in map (cons n) (walk c)) es
  end.

Fixpoint upsert (nm : string) (f : option node -> node) (es : list (string * node))
  : list (string * node) :=
  match es with
  | [] => [(nm, f None)]
  | (n, c) :: es' =>
      if String.eqb n nm then (n, f (Some c)) :: es' else (n, c) :: upsert nm f es'
  end.

(** [mkdir(parents=True, exist_ok=True)] of the path [full], of components
    [p]: the missing directories are added; a regular file at the path
    raises [FileExistsError], one on the way to it [NotADirectoryError]. *)
Fixpoint mkdirs (full : string) (p : list string) (t : node) {struct p} : result node :=
  match p with
  | [] =>
      match t with
      | Dir _ => Ok t
      | File => Raise (FileExistsError ("[Errno 17] File exists: '" +++ full +++ "'"))
      end
  | c :: p' =>
      match t with
      | Dir es =>
          let! sub :=
            mkdirs full p' match find_entry c es with Some t' => t' | None => Dir [] end in
          Ok (Dir (upsert c (fun _ => sub) es))
      | File =>
          Raise (NotADirectoryError ("[Errno 20] Not a directory: '" +++ full +++ "'"))
      end
  end.

Definition tree_listing (t : node) (d : Path) : list (list string) :=
  match lookup (parts d) t with
  | Some sub => walk sub
  | None => []
  end.

(** The tree as an operating system, for a given behaviour of the encoder. *)
Definition TreeOS (encoder : node -> list string -> result (node * Z)) : OS :=
  {| FS := node;
     path_exists := fun t p => match lookup (parts p) t with Some _ => true | None => false end;
     mkdir_parents := fun t p => mkdirs (str p) (parts p) t;
     listing := tree_listing;
     spawn := encoder |}.

(** An encoder that writes nothing and fails. *)
Definition failing_encoder (t : node) (argv : list string) : result (node * Z) :=
  Ok (t, 1%Z).

(** An encoder that writes nothing and succeeds. *)
Definition quiet_encoder (t : node) (argv : list string) : result (node * Z) :=
  Ok (t, 0%Z).

(** No encoder is installed: the process cannot be started. *)
Definition missing_encoder (t : node) (argv : list string) : result (node * Z) :=
  Raise (FileNotFoundError
           ("[Errno 2] No such file or directory: '" +++ hd "" argv +++ "'")).

(** A small tree used in the examples: a font, an input directory with
    three regular files, a sub-directory with one video, and a directory
    whose name looks like a video. *)
Definition sample_tree : node :=
  Dir [("f.ttf", File);
       ("In", Dir [("a.mp4", File); ("b.MP4", File); ("c.txt", File);
                   ("sub", Dir [("clip.mov", File); ("d.mp4", Dir [])])])].

(** The sample tree once the output root is made. *)
Definition sample_tree_out : node :=
  Dir [("f.ttf", File);
       ("In", Dir [("a.mp4", File); ("b.MP4", File); ("c.txt", File);
                   ("sub", Dir [("clip.mov", File); ("d.mp4", Dir [])])]);
       ("Out", Dir [])].

(** The sample tree with a regular file where the directory [Out/sub] is
    needed. *)
Definition blocked_tree : node :=
  Dir [("f.ttf", File);
       ("In", Dir [("a.mp4", File); ("b.MP4", File); ("c.txt", File);
                   ("sub", Dir [("clip.mov", File); ("d.mp4", Dir [])])]);
       ("Out", Dir [("sub", File)])].

Definition sample_args (suffix : string) (quality : Z) : Args :=
  mkArgs "In" "Out" suffix quality "hevc_qsv" 30 "white" "f.ttf" None.

(** Two ends of a run, under two encoders, that show the same thing: the
    same kind of end, the same tree and the same trace. *)
Definition same_end {enc1 enc2 : node -> list string -> result (node * Z)}
    (r1 : @step (TreeOS enc1) unit) (r2 : @step (TreeOS enc2) unit) : Prop :=
  match r1, r2 with
  | Next _ w1, Next _ w2 =>
      @fs (TreeOS enc1) w1 = @fs (TreeOS enc2) w2 /\ trace w1 = trace w2
  | Exit c1 w1, Exit c2 w2 =>
      c1 = c2 /\ @fs (TreeOS enc1) w1 = @fs (TreeOS enc2) w2 /\ trace w1 = trace w2
  | Throw e1 w1, Throw e2 w2 =>
      e1 = e2 /\ @fs (TreeOS enc1) w1 = @fs (TreeOS enc2) w2 /\ trace w1 = trace w2
  | _, _ => False
  end.

(** An entry of any kind reached from a directory by a chain of components. *)
Inductive reaches : node -> list string -> node -> Prop :=
| reaches_entry es n c : In (n, c) es -> reaches (Dir es) [n] c
| reaches_below es n c rel c' :
    In (n, c) es -> reaches c rel c' -> reaches (Dir es) (n :: rel) c'.

(** The claim of the specification for the font path, in its words: every
    colon and comma of the embedded path follows a backslash. *)
Fixpoint specials_escaped_after (prev : ascii) (s : string) : bool :=
  match s with
  | EmptyString => true
  | String c s' =>
      (if Ascii.eqb c ":" || Ascii.eqb c "," then Ascii.eqb prev "\" else true)
      && specials_escaped_after c s'
  end.

Definition specials_escaped (s : string) : bool := specials_escaped_after " "%char s.

(** * Properties *)

(** ** Helper lemmas on strings and numerals *)

Lemma eqb_neq_false (a b : string) : a <> b -> String.eqb a b = false.
Proof. intros H. apply String.eqb_neq. exact H. Qed.

Lemma filter_not_dash e c s x :
  String.eqb (drawtext_filter e c s) (String "-" x) = false.
Proof. reflexivity. Qed.

Lemma filter_neq_dash e c s x : drawtext_filter e c s <> String "-" x.
Proof. apply String.eqb_neq. apply filter_not_dash. Qed.

(** A decimal numeral starts with a digit, or with a minus sign and a digit:
    it is never one of the flags of the command. *)
Lemma str_int_not_flag (q : Z) (x : string) :
  str_int q <> String "-" (String "b" x) /\ str_int q <> String "-" (String "g" x).
Proof.
  unfold str_int. destruct q as [|p|p]; cbn.
  - split; discriminate.
  - pose proof (Unsigned.to_uint_nonnil p) as Hn.
    destruct (Pos.to_uint p); try congruence; cbn; split; discriminate.
  - pose proof (Unsigned.to_uint_nonnil p) as Hn.
    destruct (Pos.to_uint p); try congruence; cbn; split; discriminate.
Qed.

(** ** The command builder *)

Lemma list_index_initial file out esc color size codec q :
  list_index (initial_command file out esc color size codec q) "-global_quality"
  = Ok (if String.eqb (str file) "-global_quality" then 4
        else if String.eqb codec "-global_quality" then 8 else 9)%Z.
Proof.
  unfold list_index, initial_command. cbn [list_index_from].
  change (String.eqb "ffmpeg" "-global_quality") with false.
  change (String.eqb "-hwaccel_output_format" "-global_quality") with false.
  change (String.eqb "qsv" "-global_quality") with false.
  change (String.eqb "-i" "-global_quality") with false.
  change (String.eqb "-vf" "-global_quality") with false.
  change (String.eqb "-c:v" "-global_quality") with false.
  change (String.eqb "-global_quality" "-global_quality") with true.
  cbv iota.
  destruct (String.eqb (str file) "-global_quality"); [reflexivity|].
  rewrite filter_not_dash.
  destruct (String.eqb codec "-global_quality"); reflexivity.
Qed.

Lemma build_without_bitrate file out esc color size codec q bitrate :
  bitrate = None \/ bitrate = Some "" ->
  build_ffmpeg_command file out esc color size codec q bitrate
  = Ok (initial_command file out esc color size codec q).
Proof. intros [-> | ->]; reflexivity. Qed.

Lemma build_with_bitrate file out esc color size codec q b :
  b <> "" ->
  build_ffmpeg_command file out esc color size codec q (Some b)
  = let cmd0 := initial_command file out esc color size codec q in
    let i := if String.eqb (str file) "-global_quality" then 4
             else if String.eqb codec "-global_quality" then 8 else 9 in
    Ok (replace_nth (replace_nth cmd0 i "-b:v") (S i) b).
Proof.
  intros Hb. unfold build_ffmpeg_command.
  rewrite (eqb_neq_false b "" Hb). cbn [negb].
  rewrite list_index_initial. cbn [rbind].
  destruct (String.eqb (str file) "-global_quality");
    [|destruct (String.eqb codec "-global_quality")]; reflexivity.
Qed.

(** C6. [validate_video_quality q] raises its [ValueError] exactly when
    [q < 0] or [q > 51], and returns normally exactly when [0 <= q <= 51];
    the bounds 0 and 51 are accepted. *)
Theorem validate_video_quality_fails_iff (q : Z) :
  (validate_video_quality q
     = Raise (ValueError "视频质量参数无效，必须在 0 到 51 之间")
   <-> (q < 0 \/ q > 51)%Z)
  /\ (validate_video_quality q = Ok tt <-> (0 <= q <= 51)%Z)
  /\ validate_video_quality 0 = Ok tt
  /\ validate_video_quality 51 = Ok tt.
Proof.
  unfold validate_video_quality.
  repeat split; try reflexivity;
    destruct (Z.leb_spec 0 q); destruct (Z.leb_spec q 51); cbn;
    intros; try discriminate; try reflexivity; lia.
Qed.

(** C1, as amended. Without a bitrate ([None] or the empty string) the
    command is the list of fifteen arguments of lines 22-34: it holds
    [-global_quality] and the quality at slots 9 and 10, it holds [-c:a],
    [copy], and it ends with [-y] and the output file. It holds no [-b:v]
    provided that none of the input file, the codec and the output file is
    itself that string. *)
Theorem build_no_bitrate_command file out esc color size codec q bitrate :
  bitrate = None \/ bitrate = Some "" ->
  let cmd :=
    ["ffmpeg"; "-hwaccel_output_format"; "qsv"; "-i"; str file; "-vf";
     drawtext_filter esc color size; "-c:v"; codec; "-global_quality";
     str_int q; "-c:a"; "copy"; "-y"; str out] in
  build_ffmpeg_command file out esc color size codec q bitrate = Ok cmd
  /\ List.length cmd = 15
  /\ (exists pre post, cmd = pre ++ ["-global_quality"; str_int q] ++ post)
  /\ (exists pre post, cmd = pre ++ ["-c:a"; "copy"] ++ post)
  /\ (exists pre, cmd = pre ++ ["-y"; str out])
  /\ (str file <> "-b:v" -> codec <> "-b:v" -> str out <> "-b:v" ->
      ~ In "-b:v" cmd).
Proof.
  intros Hb cmd. split; [apply (build_without_bitrate _ _ _ _ _ _ _ _ Hb)|].
  split; [reflexivity|].
  split.
  { exists ["ffmpeg"; "-hwaccel_output_format"; "qsv"; "-i"; str file; "-vf";
            drawtext_filter esc color size; "-c:v"; codec],
           ["-c:a"; "copy"; "-y"; str out]. reflexivity. }
  split.
  { exists ["ffmpeg"; "-hwaccel_output_format"; "qsv"; "-i"; str file; "-vf";
            drawtext_filter esc color size; "-c:v"; codec; "-global_quality";
            str_int q],
           ["-y"; str out]. reflexivity. }
  split.
  { exists ["ffmpeg"; "-hwaccel_output_format"; "qsv"; "-i"; str file; "-vf";
            drawtext_filter esc color size; "-c:v"; codec; "-global_quality";
            str_int q; "-c:a"; "copy"]. reflexivity. }
  intros Hf Hc Ho Hin. subst cmd. cbn [In] in Hin.
  repeat (destruct Hin as [Hin | Hin]); try discriminate Hin; try contradiction.
  exact (proj1 (str_int_not_flag q ":v") Hin).
Qed.

Lemma build_no_bitrate_command_witness :
  (@None string = None \/ @None string = Some "")
  /\ build_ffmpeg_command (Path_of "In/a.mp4") (Path_of "Out/a_wm.mp4") "f.ttf"
       "white" 30 "hevc_qsv" 18 None
     = Ok ["ffmpeg"; "-hwaccel_output_format"; "qsv"; "-i"; "In/a.mp4"; "-vf";
           drawtext_filter "f.ttf" "white" 30; "-c:v"; "hevc_qsv";
           "-global_quality"; "18"; "-c:a"; "copy"; "-y"; "Out/a_wm.mp4"].
Proof.
  split; [left; reflexivity|].
  apply (build_no_bitrate_command (Path_of "In/a.mp4") (Path_of "Out/a_wm.mp4")
           "f.ttf" "white" 30 "hevc_qsv" 18 None).
  left; reflexivity.
Defined.

(** C1 as stated fails: with the codec [-b:v] and no bitrate, the command
    holds [-b:v]. *)
Lemma build_no_bitrate_may_hold_bv :
  exists cmd,
    build_ffmpeg_command (Path_of "In/a.mp4") (Path_of "Out/a_wm.mp4") "f.ttf"
      "white" 30 "-b:v" 18 None = Ok cmd
    /\ In "-b:v" cmd.
Proof.
  eexists. split; [reflexivity|]. cbn. tauto.
Qed.

(** C2, as amended. With a bitrate that is not empty, and when neither the
    input file nor the codec is itself the string [-global_quality], the
    command is the command without bitrate with [-b:v] and the bitrate in
    the two slots (9 and 10) of [-global_quality] and the quality: same
    length, every other slot unchanged. [-global_quality] then appears
    nowhere, provided the output file and the bitrate are not that string. *)
Theorem build_bitrate_swaps_quality_pair file out esc color size codec q b :
  b <> "" ->
  str file <> "-global_quality" ->
  codec <> "-global_quality" ->
  exists pre post,
    List.length pre = 9
    /\ build_ffmpeg_command file out esc color size codec q None
       = Ok (pre ++ ["-global_quality"; str_int q] ++ post)
    /\ build_ffmpeg_command file out esc color size codec q (Some b)
       = Ok (pre ++ ["-b:v"; b] ++ post)
    /\ (str out <> "-global_quality" -> b <> "-global_quality" ->
        ~ In "-global_quality" (pre ++ ["-b:v"; b] ++ post)).
Proof.
  intros Hb Hf Hc.
  exists ["ffmpeg"; "-hwaccel_output_format"; "qsv"; "-i"; str file; "-vf";
          drawtext_filter esc color size; "-c:v"; codec],
         ["-c:a"; "copy"; "-y"; str out].
  split; [reflexivity|]. split; [reflexivity|]. split.
  - rewrite (build_with_bitrate _ _ _ _ _ _ _ _ Hb).
    rewrite (eqb_neq_false _ _ Hf), (eqb_neq_false _ _ Hc). reflexivity.
  - intros Ho Hbg Hin. cbn [In app] in Hin.
    repeat (destruct Hin as [Hin | Hin]); try discriminate Hin;
      try contradiction; try (symmetry in Hin; contradiction).
Qed.

Lemma build_bitrate_swaps_quality_pair_witness :
  exists pre post,
    List.length pre = 9
    /\ build_ffmpeg_command (Path_of "In/a.mp4") (Path_of "Out/a_wm.mp4") "f.ttf"
         "white" 30 "hevc_qsv" 18 None
       = Ok (pre ++ ["-global_quality"; "18"] ++ post)
    /\ build_ffmpeg_command (Path_of "In/a.mp4") (Path_of "Out/a_wm.mp4") "f.ttf"
         "white" 30 "hevc_qsv" 18 (Some "2M")
       = Ok (pre ++ ["-b:v"; "2M"] ++ post)
    /\ (str (Path_of "Out/a_wm.mp4") <> "-global_quality" ->
        "2M" <> "-global_quality" ->
        ~ In "-global_quality" (pre ++ ["-b:v"; "2M"] ++ post)).
Proof.
  apply (build_bitrate_swaps_quality_pair (Path_of "In/a.mp4")
           (Path_of "Out/a_wm.mp4") "f.ttf" "white" 30 "hevc_qsv" 18 "2M");
    vm_compute; discriminate.
Defined.

(** C2 as stated fails in four ways: an input file or a codec equal to
    [-global_quality] moves the swap to slots 4-5 or 8-9 and leaves the flag
    at slot 9; a bitrate or an output file equal to it keeps the string in
    the list. *)
Lemma build_bitrate_swap_misplaced :
  build_ffmpeg_command (Path_of "-global_quality") (Path_of "o.mp4") "f" "w" 30
    "hevc_qsv" 18 (Some "2M")
  = Ok ["ffmpeg"; "-hwaccel_output_format"; "qsv"; "-i"; "-b:v"; "2M";
        drawtext_filter "f" "w" 30; "-c:v"; "hevc_qsv"; "-global_quality"; "18";
        "-c:a"; "copy"; "-y"; "o.mp4"]
  /\ build_ffmpeg_command (Path_of "i.mp4") (Path_of "o.mp4") "f" "w" 30
       "-global_quality" 18 (Some "2M")
     = Ok ["ffmpeg"; "-hwaccel_output_format"; "qsv"; "-i"; "i.mp4"; "-vf";
           drawtext_filter "f" "w" 30; "-c:v"; "-b:v"; "2M"; "18";
           "-c:a"; "copy"; "-y"; "o.mp4"]
  /\ build_ffmpeg_command (Path_of "i.mp4") (Path_of "o.mp4") "f" "w" 30
       "hevc_qsv" 18 (Some "-global_quality")
     = Ok ["ffmpeg"; "-hwaccel_output_format"; "qsv"; "-i"; "i.mp4"; "-vf";
           drawtext_filter "f" "w" 30; "-c:v"; "hevc_qsv"; "-b:v";
           "-global_quality"; "-c:a"; "copy"; "-y"; "o.mp4"]
  /\ build_ffmpeg_command (Path_of "i.mp4") (Path_of "-global_quality") "f" "w" 30
       "hevc_qsv" 18 (Some "2M")
     = Ok ["ffmpeg"; "-hwaccel_output_format"; "qsv"; "-i"; "i.mp4"; "-vf";
           drawtext_filter "f" "w" 30; "-c:v"; "hevc_qsv"; "-b:v"; "2M";
           "-c:a"; "copy"; "-y"; "-global_quality"].
Proof. repeat split; reflexivity. Qed.

(** C10, as amended. The list of lines 22-34 holds [-global_quality] at
    index 9, so [index] never raises and returns a position between 0 and 9,
    the guard holds, both assignments are in range and the function returns
    a list of fifteen arguments for every input. [index] returns the first
    match: the swap writes slots 9 and 10, and only those, when neither the
    input file nor the codec is itself the string [-global_quality]. *)
Theorem build_index_found_and_total file out esc color size codec q bitrate :
  let cmd0 := initial_command file out esc color size codec q in
  nth_error cmd0 9 = Some "-global_quality"
  /\ (exists i, list_index cmd0 "-global_quality" = Ok i
                /\ (0 <=? i)%Z = true /\ (i <= 9)%Z)
  /\ (exists cmd, build_ffmpeg_command file out esc color size codec q bitrate = Ok cmd
                  /\ List.length cmd = 15)
  /\ (forall b, bitrate = Some b -> b <> "" ->
        str file <> "-global_quality" -> codec <> "-global_quality" ->
        list_index cmd0 "-global_quality" = Ok 9%Z
        /\ exists cmd,
             build_ffmpeg_command file out esc color size codec q bitrate = Ok cmd
             /\ nth_error cmd 9 = Some "-b:v"
             /\ nth_error cmd 10 = Some b
             /\ forall k, k <> 9 -> k <> 10 -> nth_error cmd k = nth_error cmd0 k).
Proof.
  intros cmd0. split; [reflexivity|]. split.
  { subst cmd0. rewrite list_index_initial.
    destruct (String.eqb (str file) "-global_quality");
      [|destruct (String.eqb codec "-global_quality")];
      eexists; (split; [reflexivity|]); split; (reflexivity || lia). }
  split.
  { destruct bitrate as [b|]; [|eexists; split; reflexivity].
    destruct (String.eqb_spec b "") as [->|Hb]; [eexists; split; reflexivity|].
    rewrite (build_with_bitrate _ _ _ _ _ _ _ _ Hb). cbv zeta.
    destruct (String.eqb (str file) "-global_quality");
      [|destruct (String.eqb codec "-global_quality")];
      eexists; split; reflexivity. }
  intros b -> Hb Hf Hc. subst cmd0. rewrite list_index_initial.
  rewrite (build_with_bitrate _ _ _ _ _ _ _ _ Hb).
  rewrite (eqb_neq_false _ _ Hf), (eqb_neq_false _ _ Hc).
  split; [reflexivity|]. eexists. split; [reflexivity|].
  split; [reflexivity|]. split; [reflexivity|].
  intros k H9 H10.
  do 11 (destruct k as [|k]; [try reflexivity; congruence|]).
  reflexivity.
Qed.

Lemma build_index_found_and_total_witness :
  list_index (initial_command (Path_of "In/a.mp4") (Path_of "Out/a_wm.mp4") "f.ttf"
                "white" 30 "hevc_qsv" 18) "-global_quality" = Ok 9%Z
  /\ exists cmd,
       build_ffmpeg_command (Path_of "In/a.mp4") (Path_of "Out/a_wm.mp4") "f.ttf"
         "white" 30 "hevc_qsv" 18 (Some "2M") = Ok cmd
       /\ nth_error cmd 9 = Some "-b:v"
       /\ nth_error cmd 10 = Some "2M"
       /\ forall k, k <> 9 -> k <> 10 ->
            nth_error cmd k
            = nth_error (initial_command (Path_of "In/a.mp4") (Path_of "Out/a_wm.mp4")
                           "f.ttf" "white" 30 "hevc_qsv" 18) k.
Proof.
  pose proof (build_index_found_and_total (Path_of "In/a.mp4")
                (Path_of "Out/a_wm.mp4") "f.ttf" "white" 30 "hevc_qsv" 18
                (Some "2M")) as H.
  cbv zeta in H. destruct H as (_ & _ & _ & H).
  apply (H "2M"); [reflexivity | | |]; vm_compute; discriminate.
Defined.

(** C10 as stated fails: for an input file named [-global_quality] the
    lookup returns 4 and the swap writes slots 4 and 5, not 9 and 10. *)
Lemma build_swap_not_always_at_9 :
  list_index (initial_command (Path_of "-global_quality") (Path_of "o.mp4") "f" "w"
                30 "hevc_qsv" 18) "-global_quality" = Ok 4%Z
  /\ exists cmd,
       build_ffmpeg_command (Path_of "-global_quality") (Path_of "o.mp4") "f" "w" 30
         "hevc_qsv" 18 (Some "2M") = Ok cmd
       /\ nth_error cmd 4 = Some "-b:v"
       /\ nth_error cmd 5 = Some "2M"
       /\ nth_error cmd 9 = Some "-global_quality"
       /\ nth_error cmd 10 = Some "18".
Proof.
  split; [reflexivity|]. eexists. split; [reflexivity|]. repeat split.
Qed.

(** ** Strings and paths *)

Lemma str_contains_app c a b :
  str_contains c (a +++ b) = str_contains c a || str_contains c b.
Proof.
  induction a as [|d a IH]; cbn; [reflexivity|].
  rewrite IH. apply orb_assoc.
Qed.

Lemma str_take_drop n s : str_take n s +++ str_drop n s = s.
Proof.
  revert s. induction n as [|n IH]; intros [|c s]; cbn; try reflexivity.
  now rewrite IH.
Qed.

Lemma name_stem_suffix nm : name_stem nm +++ name_suffix nm = nm.
Proof.
  unfold name_stem, name_suffix. destruct (has_suffix nm).
  - apply str_take_drop.
  - clear. induction nm as [|c nm IH]; cbn; [reflexivity|]. now rewrite IH.
Qed.

Lemma name_parts_no_sep c nm :
  str_contains c nm = false ->
  str_contains c (name_stem nm) = false /\ str_contains c (name_suffix nm) = false.
Proof.
  intros H. rewrite <- (name_stem_suffix nm), str_contains_app in H.
  now apply orb_false_iff in H.
Qed.

Lemma rfind_from_absent c s i : str_contains c s = false -> rfind_from c s i = (-1)%Z.
Proof.
  revert i. induction s as [|d s IH]; intros i H; cbn in *; [reflexivity|].
  apply orb_false_iff in H. destruct H as [Hd Hs].
  rewrite (IH _ Hs), Hd. reflexivity.
Qed.

Lemma rfind_from_last c base ext i :
  (0 <= i)%Z -> str_contains c ext = false ->
  rfind_from c (base +++ String c ext) i = (i + Z.of_nat (String.length base))%Z.
Proof.
  intros Hi Hext. revert i Hi.
  induction base as [|d base IH]; intros i Hi; cbn [String.append rfind_from String.length].
  - rewrite (rfind_from_absent _ _ _ Hext). cbn. rewrite Ascii.eqb_refl. lia.
  - rewrite IH by lia.
    destruct (Z.leb_spec 0 (i + 1 + Z.of_nat (String.length base))); lia.
Qed.

Lemma length_append a b :
  String.length (a +++ b) = String.length a + String.length b.
Proof. induction a as [|c a IH]; cbn; [reflexivity|]. now rewrite IH. Qed.

Lemma str_take_app a b : str_take (String.length a) (a +++ b) = a.
Proof. induction a as [|c a IH]; cbn; [now destruct b|]. now rewrite IH. Qed.

Lemma str_drop_app a b : str_drop (String.length a) (a +++ b) = b.
Proof. induction a as [|c a IH]; cbn; [now destruct b|]. exact IH. Qed.

(** A name [base.ext] with a base and an extension that are not empty, the
    extension holding no dot, has stem [base] and suffix [.ext]. *)
Lemma stem_suffix_of_dotted base ext :
  base <> "" -> ext <> "" -> str_contains "." ext = false ->
  name_stem (base +++ String "." ext) = base
  /\ name_suffix (base +++ String "." ext) = String "." ext.
Proof.
  intros Hb He Hd.
  assert (Hr : rfind "." (base +++ String "." ext) = Z.of_nat (String.length base)).
  { unfold rfind. rewrite rfind_from_last by (lia || assumption). lia. }
  assert (Hs : has_suffix (base +++ String "." ext) = true).
  { unfold has_suffix. rewrite Hr, length_append. cbn [String.length].
    destruct base; [congruence|]. destruct ext; [congruence|].
    cbn [String.length]. apply andb_true_iff. split.
    - apply Z.ltb_lt. lia.
    - apply Z.ltb_lt. lia. }
  unfold name_stem, name_suffix. rewrite Hs, Hr, Nat2Z.id.
  split; [apply str_take_app | apply str_drop_app].
Qed.

Lemma strip_prefix_app pre l : strip_prefix pre (pre ++ l) = Some l.
Proof.
  induction pre as [|x pre IH]; cbn; [reflexivity|].
  now rewrite String.eqb_refl.
Qed.

Lemma relative_to_join d rel :
  relative_to (d // mkPath "" rel) d = Ok (mkPath "" rel).
Proof.
  unfold relative_to, joinpath. cbn.
  now rewrite String.eqb_refl, strip_prefix_app.
Qed.

Lemma valid_renamed nm sfx :
  str_contains sep nm = false -> str_contains sep sfx = false ->
  valid_name (name_stem nm +++ "_" +++ sfx +++ name_suffix nm) = true.
Proof.
  intros Hn Hs. destruct (name_parts_no_sep _ _ Hn) as [H1 H2].
  unfold valid_name.
  rewrite !str_contains_app, H1, H2, Hs.
  assert (Hu : str_contains "_" (name_stem nm +++ "_" +++ sfx +++ name_suffix nm) = true).
  { rewrite str_contains_app. apply orb_true_iff. right. reflexivity. }
  destruct (String.eqb_spec (name_stem nm +++ "_" +++ sfx +++ name_suffix nm) "") as [E|_];
    [rewrite E in Hu; discriminate|].
  destruct (String.eqb_spec (name_stem nm +++ "_" +++ sfx +++ name_suffix nm) ".") as [E|_];
    [rewrite E in Hu; discriminate|].
  reflexivity.
Qed.

Lemma output_file_name_of_join input_directory output_directory output_suffix dir nm :
  nm <> "" ->
  str_contains sep nm = false ->
  str_contains sep output_suffix = false ->
  output_file_name_of input_directory output_directory output_suffix
    (input_directory // mkPath "" (dir ++ [nm]))
  = Ok (output_directory
          // mkPath "" (dir ++ [name_stem nm +++ "_" +++ output_suffix +++ name_suffix nm])).
Proof.
  intros Hne Hn Hs. unfold output_file_name_of.
  rewrite relative_to_join. cbn [rbind].
  unfold with_name, stem, suffix, name. cbn [parts anchor].
  rewrite last_last, (eqb_neq_false _ _ Hne), (valid_renamed _ _ Hn Hs).
  rewrite removelast_last. reflexivity.
Qed.

(** C4, as amended. For a file [input/dir/name] and a suffix that holds no
    path separator, the output path is [output/dir/] followed by the stem of
    the name, an underscore, the suffix and the extension of the name; stem
    and extension make up the name, and for a name [base.ext] they are
    [base] and [.ext]. In [In], [In/sub/clip.mov], [Out], [wm] give
    [Out/sub/clip_wm.mov]. *)
Theorem output_path_mirrors_input input_directory output_directory output_suffix dir nm :
  nm <> "" ->
  str_contains sep nm = false ->
  str_contains sep output_suffix = false ->
  output_file_name_of input_directory output_directory output_suffix
    (input_directory // mkPath "" (dir ++ [nm]))
  = Ok (output_directory
          // mkPath "" (dir ++ [name_stem nm +++ "_" +++ output_suffix +++ name_suffix nm]))
  /\ name_stem nm +++ name_suffix nm = nm
  /\ (forall base ext,
        nm = base +++ String "." ext ->
        base <> "" -> ext <> "" -> str_contains "." ext = false ->
        name_stem nm +++ "_" +++ output_suffix +++ name_suffix nm
        = base +++ "_" +++ output_suffix +++ String "." ext)
  /\ (Path_of "In/sub/clip.mov" = Path_of "In" // mkPath "" (["sub"] ++ ["clip.mov"])
      /\ exists p,
           output_file_name_of (Path_of "In") (Path_of "Out") "wm"
             (Path_of "In/sub/clip.mov") = Ok p
           /\ str p = "Out/sub/clip_wm.mov").
Proof.
  intros Hne Hn Hs. split; [now apply output_file_name_of_join|].
  split; [apply name_stem_suffix|].
  split; [|split; [reflexivity | eexists; split; reflexivity]].
  intros base ext -> Hb He Hd.
  destruct (stem_suffix_of_dotted base ext Hb He Hd) as [-> ->]. reflexivity.
Qed.

Lemma output_path_mirrors_input_witness :
  output_file_name_of (Path_of "In") (Path_of "Out") "wm"
    (Path_of "In" // mkPath "" (["sub"] ++ ["clip.mov"]))
  = Ok (Path_of "Out"
          // mkPath "" (["sub"] ++ [name_stem "clip.mov" +++ "_" +++ "wm"
                                     +++ name_suffix "clip.mov"])).
Proof.
  apply (output_path_mirrors_input (Path_of "In") (Path_of "Out") "wm" ["sub"]
           "clip.mov"); [discriminate | reflexivity | reflexivity].
Defined.

(** C4 as stated fails for a suffix that holds a separator: [with_name]
    rejects the new name and no output path is computed. *)
Lemma output_path_rejects_separator_in_suffix :
  output_file_name_of (Path_of "In") (Path_of "Out") "a/b" (Path_of "In/sub/clip.mov")
  = Raise (ValueError "Invalid name 'clip_a/b.mov'").
Proof. reflexivity. Qed.

(** ** The font path in the filter *)

Lemma str_replace_length old new s :
  String.length (str_replace old new s) = String.length s.
Proof. induction s as [|c s IH]; cbn; [reflexivity|]. now rewrite IH. Qed.

Lemma str_replace_get old new s i :
  String.get i (str_replace old new s)
  = option_map (fun c => if Ascii.eqb c old then new else c) (String.get i s).
Proof.
  revert i. induction s as [|c s IH]; intros i; cbn; [reflexivity|].
  destruct i; [reflexivity | apply IH].
Qed.

Lemma str_replace_removes old new s :
  Ascii.eqb new old = false -> str_contains old (str_replace old new s) = false.
Proof.
  intros Hn. induction s as [|c s IH]; cbn; [reflexivity|].
  rewrite IH, orb_false_r.
  destruct (Ascii.eqb c old) eqn:E; [exact Hn | exact E].
Qed.

Lemma unescaped_without_backslash prev s :
  Ascii.eqb prev "\" = false ->
  str_contains "\" s = false ->
  specials_escaped_after prev s = negb (str_contains ":" s || str_contains "," s).
Proof.
  revert prev. induction s as [|c s IH]; intros prev Hp Hs; cbn in *; [reflexivity|].
  apply orb_false_iff in Hs. destruct Hs as [Hc Hs].
  rewrite (IH c Hc Hs), Hp.
  destruct (Ascii.eqb c ":"), (Ascii.eqb c ","); cbn;
    try reflexivity; now destruct (str_contains ":" s).
Qed.

Lemma build_keeps_filter file out esc color size codec q bitrate :
  exists cmd,
    build_ffmpeg_command file out esc color size codec q bitrate = Ok cmd
    /\ nth_error cmd 6 = Some (drawtext_filter esc color size).
Proof.
  destruct bitrate as [b|]; [|eexists; split; reflexivity].
  destruct (String.eqb_spec b "") as [->|Hb]; [eexists; split; reflexivity|].
  rewrite (build_with_bitrate _ _ _ _ _ _ _ _ Hb). cbv zeta.
  destruct (String.eqb (str file) "-global_quality");
    [|destruct (String.eqb codec "-global_quality")];
    eexists; split; reflexivity.
Qed.

(** C3, as amended. The font path embedded in the filter is [str(font_file)]
    with every backslash replaced by a forward slash and every other
    character kept: it holds no backslash at all, so a colon or a comma of
    the path is embedded as it is, without escape. The [-vf] argument holds
    exactly this string between [fontfile='] and the closing quote; the
    commas of the fixed [x], [y] and [enable] expressions are the ones
    escaped. *)
Theorem font_path_slashes_only (font_file : Path) file out color size codec q bitrate :
  let esc := escaped_font_file_of font_file in
  String.length esc = String.length (str font_file)
  /\ (forall i, String.get i esc
                = option_map (fun c => if Ascii.eqb c "\" then "/"%char else c)
                    (String.get i (str font_file)))
  /\ str_contains "\" esc = false
  /\ specials_escaped esc = negb (str_contains ":" esc || str_contains "," esc)
  /\ exists cmd,
       build_ffmpeg_command file out esc color size codec q bitrate = Ok cmd
       /\ nth_error cmd 6
          = Some ("drawtext=fontcolor=" +++ color +++ ":fontsize=" +++ str_int size
                    +++ ":fontfile='" +++ esc
                    +++ "':text='PINSE.CLUB':x='if(eq(mod(n\,2000)\,0)\,rand(0\,(w-text_w))\,x)':y='if(eq(mod(n\,2000)\,0)\,rand(0\,(h-text_h))\,y)':enable='lt(mod(n\,2000)\,1200)'").
Proof.
  intros esc. subst esc. unfold escaped_font_file_of.
  split; [apply str_replace_length|].
  split; [intros i; apply str_replace_get|].
  split; [now apply str_replace_removes|].
  split.
  { apply unescaped_without_backslash; [reflexivity|].
    now apply str_replace_removes. }
  destruct (build_keeps_filter file out
              (str_replace "\" "/" (str font_file)) color size codec q bitrate)
    as (cmd & Hc & H6).
  exists cmd. split; [exact Hc|]. exact H6.
Qed.

(** C3 as stated fails: the colon and the comma of a font path reach the
    filter without a backslash, and a backslash put before a colon by the
    user is turned into a slash. *)
Lemma font_path_colon_not_escaped :
  escaped_font_file_of (Path_of "C:/fonts/a,b.ttf") = "C:/fonts/a,b.ttf"
  /\ specials_escaped (escaped_font_file_of (Path_of "C:/fonts/a,b.ttf")) = false
  /\ escaped_font_file_of (Path_of "C\:/fonts/ab.ttf") = "C/:/fonts/ab.ttf"
  /\ specials_escaped (escaped_font_file_of (Path_of "C\:/fonts/ab.ttf")) = false
  /\ build_ffmpeg_command (Path_of "i.mp4") (Path_of "o.mp4")
       (escaped_font_file_of (Path_of "C:/fonts/a,b.ttf")) "white" 30 "hevc_qsv" 18 None
     = Ok ["ffmpeg"; "-hwaccel_output_format"; "qsv"; "-i"; "i.mp4"; "-vf";
           "drawtext=fontcolor=white:fontsize=30:fontfile='C:/fonts/a,b.ttf':text='PINSE.CLUB':x='if(eq(mod(n\,2000)\,0)\,rand(0\,(w-text_w))\,x)':y='if(eq(mod(n\,2000)\,0)\,rand(0\,(h-text_h))\,y)':enable='lt(mod(n\,2000)\,1200)'";
           "-c:v"; "hevc_qsv"; "-global_quality"; "18"; "-c:a"; "copy"; "-y";
           "o.mp4"].
Proof. repeat split; reflexivity. Qed.

(** ** Discovery *)

Lemma walk_sound t rel : In rel (walk t) -> exists c, reaches t rel c.
Proof.
  revert rel. induction t as [|es IH] using node_induction; intros rel H.
  - destruct H.
  - cbn [walk] in H. apply in_app_or in H. destruct H as [H | H].
    + apply in_map_iff in H. destruct H as ([n c] & <- & Hin).
      exists c. now apply reaches_entry.
    + apply in_flat_map in H. destruct H as ([n c] & Hin & H).
      apply in_map_iff in H. destruct H as (rel' & <- & Hrel).
      rewrite Forall_forall in IH.
      destruct (IH _ Hin _ Hrel) as (c' & Hc').
      exists c'. now apply reaches_below with c.
Qed.

Lemma walk_complete t rel c : reaches t rel c -> In rel (walk t).
Proof.
  induction 1 as [es n c Hin | es n c rel c' Hin _ IH]; cbn [walk]; apply in_or_app.
  - left. apply in_map_iff. exists (n, c). now split.
  - right. apply in_flat_map. exists (n, c). split; [exact Hin|].
    apply in_map_iff. now exists rel.
Qed.

Lemma glob_star_nil pat : glob_match (String "*" pat) "" = glob_match pat "".
Proof. cbn. apply orb_false_r. Qed.

Lemma glob_star_cons pat c s :
  glob_match (String "*" pat) (String c s)
  = glob_match pat (String c s) || glob_match (String "*" pat) s.
Proof. reflexivity. Qed.

Lemma glob_literal lit nm :
  literal lit = true -> (glob_match lit nm = true <-> nm = lit).
Proof.
  revert nm. induction lit as [|p lit IH]; intros nm Hl.
  - destruct nm; cbn; split; congruence.
  - cbn [literal] in Hl. apply andb_true_iff in Hl. destruct Hl as [Hl Hlit].
    apply andb_true_iff in Hl. destruct Hl as [Hs Hq].
    apply negb_true_iff in Hs. apply negb_true_iff in Hq.
    cbn [glob_match]. rewrite Hs. destruct nm as [|c nm]; [split; discriminate|].
    rewrite Hq. cbn [orb]. rewrite andb_true_iff, (IH nm Hlit), Ascii.eqb_eq.
    split; [intros [-> ->]; reflexivity | intros [= -> ->]; now split].
Qed.

(** [*lit] matches exactly the names that end with [lit]. *)
Lemma glob_star_literal lit nm :
  literal lit = true ->
  (glob_match (String "*" lit) nm = true <-> exists base, nm = base +++ lit).
Proof.
  intros Hl. induction nm as [|c nm IH].
  - rewrite glob_star_nil, (glob_literal _ _ Hl). split.
    + intros <-. now exists "".
    + intros (base & H). destruct base; cbn in H; [congruence | discriminate].
  - rewrite glob_star_cons, orb_true_iff, (glob_literal _ _ Hl), IH. split.
    + intros [<- | (base & ->)]; [now exists "" | now exists (String c base)].
    + intros (base & H). destruct base as [|d base]; cbn in H.
      * left. congruence.
      * right. exists base. congruence.
Qed.

Lemma video_extensions_shape pat :
  In pat video_extensions -> exists ext, pat = String "*" ext /\ literal ext = true.
Proof.
  unfold video_extensions. cbn [In]. intros H.
  repeat (destruct H as [<- | H]; [eexists; split; reflexivity|]).
  destruct H.
Qed.

(** C5, as amended. Over any tree, discovery with the twelve patterns returns
    exactly the paths [input/rel] of the entries, of any kind (regular files
    and directories alike), found at any depth below the input directory
    whose name ends, case-sensitively, with the text after the star of one
    of the patterns. A directory holding [a.mp4], [b.MP4] and [c.txt],
    searched with [*.mp4] alone, gives [a.mp4] only. *)
Theorem discovery_lists_matching_entries encoder (t : node) (input_directory p : Path) :
  (In p (@check_video_files (TreeOS encoder) t input_directory video_extensions)
   <-> exists sub rel c ext base,
         lookup (parts input_directory) t = Some sub
         /\ reaches sub rel c
         /\ p = input_directory // mkPath "" rel
         /\ In (String "*" ext) video_extensions
         /\ last rel "" = base +++ ext)
  /\ @check_video_files (TreeOS encoder)
       (Dir [("a.mp4", File); ("b.MP4", File); ("c.txt", File)]) (Path_of "") ["*.mp4"]
     = [Path_of "a.mp4"].
Proof.
  split; [|reflexivity].
  unfold check_video_files, rglob. cbn [listing TreeOS]. unfold tree_listing.
  rewrite in_flat_map. split.
  - intros (pat & Hpat & H). apply in_map_iff in H. destruct H as (rel & <- & H).
    apply filter_In in H. destruct H as [Hrel Hm].
    destruct (lookup (parts input_directory) t) as [sub|]; [|destruct Hrel].
    destruct (walk_sound _ _ Hrel) as (c & Hc).
    destruct (video_extensions_shape _ Hpat) as (ext & -> & Hl).
    apply (glob_star_literal _ _ Hl) in Hm. destruct Hm as (base & Hb).
    exists sub, rel, c, ext, base. repeat split; assumption.
  - intros (sub & rel & c & ext & base & Hsub & Hc & -> & Hext & Hb).
    destruct (video_extensions_shape _ Hext) as (ext' & [= <-] & Hl).
    exists (String "*" ext). split; [exact Hext|].
    apply in_map_iff. exists rel. split; [reflexivity|].
    apply filter_In. rewrite Hsub. split; [now apply walk_complete with c|].
    apply (glob_star_literal _ _ Hl). now exists base.
Qed.

(** C5 as stated fails: a directory whose name matches a pattern is returned
    with the files. *)
Lemma discovery_returns_directory :
  @check_video_files (TreeOS failing_encoder)
    (Dir [("In", Dir [("a.mp4", File); ("d.mp4", Dir [("x.txt", File)])])])
    (Path_of "In") video_extensions
  = [Path_of "In/a.mp4"; Path_of "In/d.mp4"]
  /\ lookup (parts (Path_of "In/d.mp4"))
       (Dir [("In", Dir [("a.mp4", File); ("d.mp4", Dir [("x.txt", File)])])])
     = Some (Dir [("x.txt", File)]).
Proof. split; reflexivity. Qed.

(** ** The run of [main] *)

Lemma build_total file out esc color size codec q bitrate :
  exists cmd, build_ffmpeg_command file out esc color size codec q bitrate = Ok cmd.
Proof.
  destruct (build_keeps_filter file out esc color size codec q bitrate) as (cmd & H & _).
  now exists cmd.
Qed.

Lemma spawned_app tr1 tr2 : spawned (tr1 ++ tr2) = spawned tr1 ++ spawned tr2.
Proof. unfold spawned. apply flat_map_app. Qed.

Lemma dispatched_spawns_each inp outp sfx esc color size codec q bitrate total idx files tr :
  dispatched inp outp sfx esc color size codec q bitrate total idx files tr ->
  List.length (spawned tr) = List.length files.
Proof. induction 1; cbn; [reflexivity | now f_equal]. Qed.

Lemma video_pattern_needs_name pat :
  In pat video_extensions -> glob_match pat "" = false.
Proof.
  unfold video_extensions. cbn [In]. intros H.
  repeat (destruct H as [<- | H]; [reflexivity|]). destruct H.
Qed.

Section Run.

Context {os : OS}.

(** Every discovered file has an output path, as soon as neither the names
    of the entries nor the suffix hold a separator. *)
Lemma discovered_have_output f input_directory output_directory output_suffix file :
  names_without_separator f input_directory = true ->
  str_contains sep output_suffix = false ->
  In file (check_video_files f input_directory video_extensions) ->
  exists out,
    output_file_name_of input_directory output_directory output_suffix file = Ok out.
Proof.
  intros Hnames Hsfx Hin. unfold check_video_files, rglob in Hin.
  apply in_flat_map in Hin. destruct Hin as (pat & Hpat & Hin).
  apply in_map_iff in Hin. destruct Hin as (rel & <- & Hin).
  apply filter_In in Hin. destruct Hin as [Hrel Hm].
  unfold names_without_separator in Hnames. rewrite forallb_forall in Hnames.
  specialize (Hnames _ Hrel). apply negb_true_iff in Hnames.
  destruct (exists_last (l := rel)) as (dir & nm & ->).
  { intros ->. cbn in Hm. now rewrite (video_pattern_needs_name _ Hpat) in Hm. }
  rewrite last_last in Hnames, Hm.
  eexists. apply output_file_name_of_join; [|assumption|assumption].
  intros ->. now rewrite (video_pattern_needs_name _ Hpat) in Hm.
Qed.

Lemma for_each_dispatches inp outp sfx esc color size codec q bitrate total files :
  Forall (fun file => exists out, output_file_name_of inp outp sfx file = Ok out) files ->
  forall idx w,
    os_calls_succeed inp outp sfx esc color size codec q bitrate (fs w) files = true ->
    exists w' tr,
      for_each (enumerate files idx)
        (process_file inp outp sfx esc color size codec q bitrate total) w
      = Next tt w'
      /\ dispatched inp outp sfx esc color size codec q bitrate total idx files tr
      /\ trace w' = trace w ++ tr.
Proof.
  induction 1 as [|file files (out & Hout) _ IH]; intros idx w Hos.
  - exists w, []. cbn. rewrite app_nil_r. repeat split. constructor.
  - destruct (build_total file out esc color size codec q bitrate) as (cmd & Hcmd).
    cbn [os_calls_succeed] in Hos. rewrite Hout, Hcmd in Hos.
    cbn [enumerate for_each]. unfold bind at 1. unfold process_file.
    unfold bind, lift, mkdir, print, subprocess_run. rewrite Hout.
    destruct (mkdir_parents (fs w) (parent out)) as [f1|e]; [|discriminate].
    rewrite Hcmd. cbn [fs trace].
    destruct (spawn f1 cmd) as [[f2 status]|e]; [|discriminate].
    specialize (IH (idx + 1)%Z
                  (mkWorld f2
                     ((trace w ++ [Printed (progress_line idx total file out)])
                        ++ [Spawned cmd])) Hos).
    destruct IH as (w' & tr & Hrun & Hd & Htr).
    exists w', (Printed (progress_line idx total file out) :: Spawned cmd :: tr).
    split; [exact Hrun|]. split; [now apply dispatched_cons|].
    rewrite Htr. cbn [trace]. rewrite <- !app_assoc. reflexivity.
Qed.

(** C7. When the quality, the codec or the presence of the font file is
    refused, [main] prints the message of the first check that fails and
    exits with status 1; the file system is the one it started with (no
    directory was made) and nothing was spawned. *)
Theorem validation_failure_exits_before_any_effect (args : Args) (w : World) :
  (exists e, validate_video_quality args.(video_quality) = Raise e)
  \/ (exists e, validate_video_codec args.(video_codec) = Raise e)
  \/ path_exists (fs w) (Path_of args.(font_file)) = false ->
  let msg :=
    match validate_video_quality args.(video_quality),
          validate_video_codec args.(video_codec) with
    | Raise e, _ => exn_message e
    | Ok _, Raise e => exn_message e
    | Ok _, Ok _ => "字体文件不存在：" +++ str (Path_of args.(font_file))
    end in
  main args w = Exit 1 (mkWorld (fs w) (trace w ++ [Printed msg]))
  /\ exit_status (main args w) = 1%Z
  /\ fs (final (main args w)) = fs w
  /\ spawned (trace (final (main args w))) = spawned (trace w).
Proof.
  intros H msg.
  assert (Hm : main args w = Exit 1 (mkWorld (fs w) (trace w ++ [Printed msg]))).
  { subst msg. unfold main. cbv zeta.
    unfold bind at 1. unfold try_except, bind, lift, ensure_font_file_exists.
    unfold validate_video_quality, validate_video_codec in *.
    destruct (negb ((0 <=? video_quality args)%Z && (video_quality args <=? 51)%Z));
      [reflexivity|].
    destruct (negb (existsb (String.eqb (video_codec args)) ["hevc_qsv"; "h264_qsv"]));
      [reflexivity|].
    destruct H as [(e & He) | [(e & He) | Hf]]; try discriminate.
    rewrite Hf. reflexivity. }
  rewrite Hm. cbn. repeat split.
  rewrite spawned_app. cbn. apply app_nil_r.
Qed.

(** C8. When the validation passes (the three checks, and the output root
    is made, giving the file system [fs1]) and discovery finds nothing,
    [main] prints that no video file was found and exits with status 1:
    nothing is spawned, and the file system is the initial one with the
    output root ensured. *)
Theorem empty_discovery_exits (args : Args) (w : World) (fs1 : FS) :
  validate_video_quality args.(video_quality) = Ok tt ->
  validate_video_codec args.(video_codec) = Ok tt ->
  path_exists (fs w) (Path_of args.(font_file)) = true ->
  mkdir_parents (fs w) (Path_of args.(output_directory)) = Ok fs1 ->
  check_video_files fs1 (Path_of args.(input_directory)) video_extensions = [] ->
  main args w
  = Exit 1
      (mkWorld fs1
         (trace w
            ++ [Printed ("输入目录 '" +++ str (Path_of args.(input_directory))
                           +++ "' 中没有找到任何视频文件")]))
  /\ exit_status (main args w) = 1%Z
  /\ spawned (trace (final (main args w))) = spawned (trace w).
Proof.
  intros Hq Hc Hf Hmk Hd.
  assert (Hm : main args w
               = Exit 1
                   (mkWorld fs1
                      (trace w
                         ++ [Printed ("输入目录 '" +++ str (Path_of args.(input_directory))
                                        +++ "' 中没有找到任何视频文件")]))).
  { unfold main. cbv zeta.
    unfold bind at 1. unfold try_except, bind, lift, ensure_font_file_exists,
      ensure_output_directory_exists, mkdir.
    rewrite Hq, Hc, Hf. cbn [negb fs trace]. rewrite Hmk. cbn [fs trace].
    rewrite Hd. reflexivity. }
  rewrite Hm. cbn. repeat split.
  rewrite spawned_app. cbn. apply app_nil_r.
Qed.

(** C9, as amended. When the validation passes (the three checks, and the
    output root is made, giving [fs1]), discovery finds at least one file,
    the suffix holds no path separator (the entries of the file system
    having names without one) and no call of the operating system fails in
    the loop (each directory is made, each encoder process is started),
    [main] returns normally, so the process ends with status 0 whatever each
    encoder run returned. Its trace is: the line giving the number of files;
    then, for each discovered file in discovery order, the progress line
    with its index counted from 1 and one call of the encoder with the
    command built for it; then the completion line. *)
Theorem dispatch_runs_every_file (args : Args) (w : World) (fs1 : FS) :
  let inp := Path_of args.(input_directory) in
  let outp := Path_of args.(output_directory) in
  let video_files := check_video_files fs1 inp video_extensions in
  validate_video_quality args.(video_quality) = Ok tt ->
  validate_video_codec args.(video_codec) = Ok tt ->
  path_exists (fs w) (Path_of args.(font_file)) = true ->
  mkdir_parents (fs w) outp = Ok fs1 ->
  video_files <> [] ->
  str_contains sep args.(output_suffix) = false ->
  names_without_separator fs1 inp = true ->
  os_calls_succeed inp outp args.(output_suffix)
    (escaped_font_file_of (Path_of args.(font_file))) args.(font_color)
    args.(font_size) args.(video_codec) args.(video_quality) args.(bitrate)
    fs1 video_files = true ->
  exists w' tr,
    main args w = Next tt w'
    /\ exit_status (main args w) = 0%Z
    /\ dispatched inp outp args.(output_suffix)
         (escaped_font_file_of (Path_of args.(font_file))) args.(font_color)
         args.(font_size) args.(video_codec) args.(video_quality) args.(bitrate)
         (List.length video_files) 1 video_files tr
    /\ trace w'
       = trace w
         ++ [Printed ("在输入目录 '" +++ str inp +++ "' 中找到 "
                        +++ str_nat (List.length video_files) +++ " 个视频文件")]
         ++ tr ++ [Printed "所有视频文件处理完成"]
    /\ List.length (spawned tr) = List.length video_files.
Proof.
  intros inp outp video_files Hq Hc Hf Hmk Hne Hsfx Hnames Hos.
  assert (Hall : Forall (fun file => exists out,
                           output_file_name_of inp outp args.(output_suffix) file = Ok out)
                   video_files).
  { apply Forall_forall. intros file Hin.
    now apply discovered_have_output with fs1. }
  set (w1 := mkWorld fs1
               (trace w ++ [Printed ("在输入目录 '" +++ str inp +++ "' 中找到 "
                                       +++ str_nat (List.length video_files)
                                       +++ " 个视频文件")])).
  destruct (for_each_dispatches inp outp args.(output_suffix)
              (escaped_font_file_of (Path_of args.(font_file))) args.(font_color)
              args.(font_size) args.(video_codec) args.(video_quality) args.(bitrate)
              (List.length video_files) video_files Hall 1%Z w1 Hos)
    as (w2 & tr & Hrun & Hd & Htr).
  assert (Hlen : Nat.eqb (List.length video_files) 0 = false).
  { revert Hne. generalize video_files.
    intros [|v vs] Hne; [now elim Hne | reflexivity]. }
  assert (Hm : main args w
               = Next tt (mkWorld (fs w2) (trace w2 ++ [Printed "所有视频文件处理完成"]))).
  { unfold main. cbv zeta.
    unfold bind at 1. unfold try_except, bind, lift, ensure_font_file_exists,
      ensure_output_directory_exists, mkdir.
    rewrite Hq, Hc, Hf. cbn [negb fs trace].
    subst w1 video_files outp inp. rewrite Hmk. cbn [fs trace].
    rewrite Hlen. unfold ret, print at 1. cbn [fs trace].
    rewrite Hrun. reflexivity. }
  exists (mkWorld (fs w2) (trace w2 ++ [Printed "所有视频文件处理完成"])), tr.
  split; [exact Hm|]. split; [rewrite Hm; reflexivity|].
  split; [exact Hd|]. split.
  - cbn [trace]. rewrite Htr. unfold w1. cbn [trace].
    rewrite <- !app_assoc. reflexivity.
  - now apply dispatched_spawns_each in Hd.
Qed.

End Run.

(** ** The run on the sample tree, with an encoder that always fails *)

Lemma validation_failure_exits_before_any_effect_witness :
  @main (TreeOS failing_encoder) (sample_args "wm" 52)
    (@mkWorld (TreeOS failing_encoder) sample_tree [])
  = Exit 1
      (@mkWorld (TreeOS failing_encoder) sample_tree
         [Printed "视频质量参数无效，必须在 0 到 51 之间"]).
Proof.
  apply (@validation_failure_exits_before_any_effect (TreeOS failing_encoder)
           (sample_args "wm" 52) (@mkWorld (TreeOS failing_encoder) sample_tree [])).
  left. eexists. reflexivity.
Defined.

Lemma empty_discovery_exits_witness :
  @main (TreeOS failing_encoder)
    (mkArgs "Empty" "Out" "wm" 18 "hevc_qsv" 30 "white" "f.ttf" None)
    (@mkWorld (TreeOS failing_encoder) sample_tree [])
  = Exit 1
      (@mkWorld (TreeOS failing_encoder) sample_tree_out
         [Printed "输入目录 'Empty' 中没有找到任何视频文件"]).
Proof.
  apply (@empty_discovery_exits (TreeOS failing_encoder)
           (mkArgs "Empty" "Out" "wm" 18 "hevc_qsv" 30 "white" "f.ttf" None)
           (@mkWorld (TreeOS failing_encoder) sample_tree []) sample_tree_out);
    reflexivity.
Defined.

Lemma dispatch_runs_every_file_witness :
  @check_video_files (TreeOS failing_encoder) sample_tree_out
    (Path_of "In") video_extensions
  = [Path_of "In/a.mp4"; Path_of "In/sub/d.mp4"; Path_of "In/sub/clip.mov"]
  /\ exit_status
       (@main (TreeOS failing_encoder) (sample_args "wm" 18)
          (@mkWorld (TreeOS failing_encoder) sample_tree []))
     = 0%Z.
Proof.
  split; [reflexivity|].
  destruct (@dispatch_runs_every_file (TreeOS failing_encoder) (sample_args "wm" 18)
              (@mkWorld (TreeOS failing_encoder) sample_tree []) sample_tree_out)
    as (w' & tr & _ & H & _);
    [reflexivity | reflexivity | reflexivity | reflexivity | vm_compute; discriminate
    | reflexivity | reflexivity | reflexivity | exact H].
Defined.

(** C9 as stated fails in three ways, the validation passing and three files
    being discovered each time. For a suffix that holds a separator the
    first output name is rejected and nothing is spawned. With a regular
    file where the directory [Out/sub] is needed, the second file raises
    [FileExistsError] at line 95, after one encoder call for three files.
    Without an encoder to start, line 104 raises [FileNotFoundError] at the
    first file. Each run ends on the exception, with status 1. *)
Lemma dispatch_stops_on_separator_in_suffix :
  validate_video_quality 18 = Ok tt
  /\ validate_video_codec "hevc_qsv" = Ok tt
  /\ @path_exists (TreeOS failing_encoder) sample_tree (Path_of "f.ttf") = true
  /\ List.length
       (@check_video_files (TreeOS failing_encoder) sample_tree_out
          (Path_of "In") video_extensions) = 3
  /\ @main (TreeOS failing_encoder) (sample_args "a/b" 18)
       (@mkWorld (TreeOS failing_encoder) sample_tree [])
     = Throw (ValueError "Invalid name 'a_a/b.mp4'")
         (@mkWorld (TreeOS failing_encoder) sample_tree_out
            [Printed "在输入目录 'In' 中找到 3 个视频文件"])
  /\ exit_status
       (@main (TreeOS failing_encoder) (sample_args "a/b" 18)
          (@mkWorld (TreeOS failing_encoder) sample_tree []))
     = 1%Z
  /\ (exists w',
        @main (TreeOS failing_encoder) (sample_args "wm" 18)
          (@mkWorld (TreeOS failing_encoder) blocked_tree [])
        = Throw (FileExistsError "[Errno 17] File exists: 'Out/sub'") w'
        /\ List.length (spawned (trace w')) = 1)
  /\ (exists w',
        @main (TreeOS missing_encoder) (sample_args "wm" 18)
          (@mkWorld (TreeOS missing_encoder) sample_tree [])
        = Throw (FileNotFoundError "[Errno 2] No such file or directory: 'ffmpeg'") w'
        /\ spawned (trace w') = []).
Proof.
  repeat split; try reflexivity; eexists; (split; [lazy; reflexivity|]); reflexivity.
Qed.

(** * Further properties of the script *)

(** ** Codec check and command builder *)

(** X1. [validate_video_codec] returns normally exactly for the two strings
    [hevc_qsv] and [h264_qsv], compared as they are written, and raises its
    [ValueError] for every other string. *)
Theorem validate_video_codec_accepts_exactly (c : string) :
  (validate_video_codec c = Ok tt <-> c = "hevc_qsv" \/ c = "h264_qsv")
  /\ (validate_video_codec c
        = Raise (ValueError "视频编码参数无效，仅支持 hevc_qsv 和 h264_qsv")
      <-> c <> "hevc_qsv" /\ c <> "h264_qsv").
Proof.
  unfold validate_video_codec. cbn [existsb].
  destruct (String.eqb_spec c "hevc_qsv") as [-> | H1];
    [|destruct (String.eqb_spec c "h264_qsv") as [-> | H2]]; cbn;
    (split; split; intros H; try discriminate; try tauto; try reflexivity;
     destruct H; congruence).
Qed.

Lemma codec_is_not_a_flag c :
  validate_video_codec c = Ok tt -> c <> "-global_quality".
Proof.
  unfold validate_video_codec. cbn [existsb]. intros H ->. cbn in H. discriminate.
Qed.

Lemma build_index_shape file out esc color size codec q bitrate cmd :
  build_ffmpeg_command file out esc color size codec q bitrate = Ok cmd ->
  hd_error cmd = Some "ffmpeg" /\ List.length cmd = 15.
Proof.
  destruct bitrate as [b|]; [|intros [= <-]; split; reflexivity].
  destruct (String.eqb_spec b "") as [->|Hb]; [intros [= <-]; split; reflexivity|].
  rewrite (build_with_bitrate _ _ _ _ _ _ _ _ Hb). cbv zeta.
  destruct (String.eqb (str file) "-global_quality");
    [|destruct (String.eqb codec "-global_quality")];
    intros [= <-]; split; reflexivity.
Qed.

(** X2. Whatever the bitrate, the file and the codec, the command has fifteen
    arguments, starts with [ffmpeg -hwaccel_output_format qsv -i], keeps the
    filter at slot 6 and ends with [-c:a copy -y] and the output file: the
    bitrate swap never reaches the first four or the last four slots. *)
Theorem build_keeps_head_and_tail file out esc color size codec q bitrate :
  exists cmd,
    build_ffmpeg_command file out esc color size codec q bitrate = Ok cmd
    /\ List.length cmd = 15
    /\ firstn 4 cmd = ["ffmpeg"; "-hwaccel_output_format"; "qsv"; "-i"]
    /\ nth_error cmd 6 = Some (drawtext_filter esc color size)
    /\ skipn 11 cmd = ["-c:a"; "copy"; "-y"; str out].
Proof.
  destruct bitrate as [b|]; [|eexists; repeat split; reflexivity].
  destruct (String.eqb_spec b "") as [->|Hb]; [eexists; repeat split; reflexivity|].
  rewrite (build_with_bitrate _ _ _ _ _ _ _ _ Hb). cbv zeta.
  destruct (String.eqb (str file) "-global_quality");
    [|destruct (String.eqb codec "-global_quality")];
    eexists; repeat split; reflexivity.
Qed.

(** X3. With a bitrate that is not empty, and an input file and a codec that
    are not the string [-global_quality], the command does not depend on the
    quality: the bitrate replaces it entirely. *)
Theorem build_bitrate_ignores_quality file out esc color size codec q1 q2 b :
  b <> "" ->
  str file <> "-global_quality" ->
  codec <> "-global_quality" ->
  build_ffmpeg_command file out esc color size codec q1 (Some b)
  = build_ffmpeg_command file out esc color size codec q2 (Some b).
Proof.
  intros Hb Hf Hc.
  rewrite !(build_with_bitrate _ _ _ _ _ _ _ _ Hb).
  rewrite (eqb_neq_false _ _ Hf), (eqb_neq_false _ _ Hc). reflexivity.
Qed.

Lemma build_bitrate_ignores_quality_witness :
  build_ffmpeg_command (Path_of "In/a.mp4") (Path_of "Out/a_wm.mp4") "f.ttf"
    "white" 30 "hevc_qsv" 0 (Some "2M")
  = build_ffmpeg_command (Path_of "In/a.mp4") (Path_of "Out/a_wm.mp4") "f.ttf"
      "white" 30 "hevc_qsv" 51 (Some "2M").
Proof.
  apply (build_bitrate_ignores_quality (Path_of "In/a.mp4") (Path_of "Out/a_wm.mp4")
           "f.ttf" "white" 30 "hevc_qsv" 0 51 "2M");
    vm_compute; discriminate.
Defined.

Lemma str_replace_absent old new s :
  str_contains old s = false -> str_replace old new s = s.
Proof.
  induction s as [|c s IH]; cbn; [reflexivity|]. intros H.
  apply orb_false_iff in H. destruct H as [Hc Hs].
  now rewrite Hc, (IH Hs).
Qed.

Lemma str_replace_twice old new s :
  Ascii.eqb new old = false ->
  str_replace old new (str_replace old new s) = str_replace old new s.
Proof.
  intros H. apply str_replace_absent. now apply str_replace_removes.
Qed.

(** X4. A font path without backslash reaches the filter as [str] prints it,
    and converting a path that is already converted changes nothing. *)
Theorem font_path_kept_without_backslash (font_file : Path) :
  (str_contains "\" (str font_file) = false ->
   escaped_font_file_of font_file = str font_file)
  /\ str_replace "\" "/" (escaped_font_file_of font_file)
     = escaped_font_file_of font_file.
Proof.
  unfold escaped_font_file_of. split.
  - apply str_replace_absent.
  - now apply str_replace_twice.
Qed.

Lemma font_path_kept_without_backslash_witness :
  escaped_font_file_of (Path_of "./fonts/SimSun.ttf") = "fonts/SimSun.ttf".
Proof.
  apply (proj1 (font_path_kept_without_backslash (Path_of "./fonts/SimSun.ttf"))).
  reflexivity.
Defined.

(** ** Output paths *)

Lemma strip_prefix_inv pre l r : strip_prefix pre l = Some r -> l = pre ++ r.
Proof.
  revert l. induction pre as [|x pre IH]; intros [|y l] H; cbn in H;
    try discriminate; try (injection H as <-; reflexivity).
  destruct (String.eqb_spec x y) as [->|]; [|discriminate].
  cbn. f_equal. now apply IH.
Qed.

Lemma last_app_cons {A} (l1 l2 : list A) x d : last (l1 ++ l2 ++ [x]) d = x.
Proof. rewrite app_assoc. apply last_last. Qed.

(** What a successful call of [output_file_name_of] says about its input and
    its result. *)
Lemma output_file_name_of_inv inp outp sfx file out :
  output_file_name_of inp outp sfx file = Ok out ->
  exists dir nm,
    anchor file = anchor inp
    /\ parts file = parts inp ++ dir ++ [nm]
    /\ nm <> ""
    /\ valid_name (name_stem nm +++ "_" +++ sfx +++ name_suffix nm) = true
    /\ out = mkPath (anchor outp)
               (parts outp ++ dir ++ [name_stem nm +++ "_" +++ sfx +++ name_suffix nm]).
Proof.
  unfold output_file_name_of, relative_to. intros H.
  destruct (String.eqb_spec (anchor file) (anchor inp)) as [Ha|]; [|discriminate].
  destruct (strip_prefix (parts inp) (parts file)) as [rest|] eqn:Hs; [|discriminate].
  apply strip_prefix_inv in Hs. cbn [rbind] in H.
  unfold with_name, stem, suffix, name in H. cbn [parts anchor] in H.
  destruct (String.eqb_spec (last rest "") "") as [|Hn]; [discriminate|].
  destruct (exists_last (l := rest)) as (dir & nm & ->).
  { intros ->. now apply Hn. }
  rewrite last_last in H, Hn. rewrite removelast_last in H.
  destruct (valid_name (name_stem nm +++ "_" +++ sfx +++ name_suffix nm)) eqn:Hv;
    [|discriminate].
  cbn [rbind] in H. injection H as <-.
  exists dir, nm. repeat split; assumption.
Qed.

Lemma renamed_length nm sfx :
  String.length (name_stem nm +++ "_" +++ sfx +++ name_suffix nm)
  = String.length nm + 1 + String.length sfx.
Proof.
  rewrite <- (name_stem_suffix nm) at 3.
  rewrite !length_append. cbn [String.length]. lia.
Qed.

(** X5. For a suffix without path separator, when an output path is
    computed, its last component is the stem of the input name, an
    underscore, the suffix and the extension of the input name; it is longer
    than the input name by the length of the suffix plus one, so the output
    path is never the input path, whatever the two roots (the same directory
    included). *)
Theorem output_name_differs_from_input inp outp sfx file out :
  str_contains sep sfx = false ->
  output_file_name_of inp outp sfx file = Ok out ->
  name out = name_stem (name file) +++ "_" +++ sfx +++ name_suffix (name file)
  /\ String.length (name out) = String.length (name file) + 1 + String.length sfx
  /\ out <> file.
Proof.
  intros _ H. apply output_file_name_of_inv in H.
  destruct H as (dir & nm & _ & Hp & _ & _ & ->).
  assert (Hn : name file = nm) by (unfold name; rewrite Hp; apply last_app_cons).
  assert (Ho : name (mkPath (anchor outp)
                       (parts outp ++ dir
                          ++ [name_stem nm +++ "_" +++ sfx +++ name_suffix nm]))
               = name_stem nm +++ "_" +++ sfx +++ name_suffix nm)
    by (unfold name; cbn [parts]; apply last_app_cons).
  rewrite Ho, Hn. split; [reflexivity|]. split; [apply renamed_length|].
  intros E. rewrite E, Hn in Ho.
  pose proof (renamed_length nm sfx) as L. rewrite <- Ho in L. lia.
Qed.

Lemma output_name_differs_from_input_witness :
  name (Path_of "In/sub/clip_wm.mov")
  = name_stem (name (Path_of "In/sub/clip.mov")) +++ "_" +++ "wm"
      +++ name_suffix (name (Path_of "In/sub/clip.mov"))
  /\ String.length (name (Path_of "In/sub/clip_wm.mov"))
     = String.length (name (Path_of "In/sub/clip.mov")) + 1 + String.length "wm"
  /\ Path_of "In/sub/clip_wm.mov" <> Path_of "In/sub/clip.mov".
Proof.
  apply (output_name_differs_from_input (Path_of "In") (Path_of "In") "wm"
           (Path_of "In/sub/clip.mov") (Path_of "In/sub/clip_wm.mov"));
    reflexivity.
Defined.

(** X6. When an output path is computed for a file, the file lies under the
    input root, the output lies under the output root at the same relative
    directory, and the parent of the output (the directory that line 95
    makes) is the output root joined with that relative directory. *)
Theorem output_mirrors_relative_directory inp outp sfx file out :
  output_file_name_of inp outp sfx file = Ok out ->
  exists dir,
    relative_to file inp = Ok (mkPath "" (dir ++ [name file]))
    /\ relative_to out outp = Ok (mkPath "" (dir ++ [name out]))
    /\ parent out = outp // mkPath "" dir.
Proof.
  intros H. apply output_file_name_of_inv in H.
  destruct H as (dir & nm & Ha & Hp & _ & _ & ->).
  exists dir. split; [|split].
  - unfold relative_to, name. rewrite Ha, String.eqb_refl, Hp, strip_prefix_app.
    now rewrite last_app_cons.
  - unfold relative_to, name. cbn [anchor parts].
    now rewrite String.eqb_refl, strip_prefix_app, last_app_cons.
  - unfold parent, joinpath. cbn [anchor parts String.eqb]. f_equal.
    rewrite app_assoc. apply removelast_last.
Qed.

Lemma output_mirrors_relative_directory_witness :
  exists dir,
    relative_to (Path_of "In/sub/clip.mov") (Path_of "In")
    = Ok (mkPath "" (dir ++ [name (Path_of "In/sub/clip.mov")]))
    /\ relative_to (Path_of "Out/sub/clip_wm.mov") (Path_of "Out")
       = Ok (mkPath "" (dir ++ [name (Path_of "Out/sub/clip_wm.mov")]))
    /\ parent (Path_of "Out/sub/clip_wm.mov") = Path_of "Out" // mkPath "" dir.
Proof.
  apply (output_mirrors_relative_directory (Path_of "In") (Path_of "Out") "wm"
           (Path_of "In/sub/clip.mov") (Path_of "Out/sub/clip_wm.mov")).
  reflexivity.
Defined.

Lemma append_same_length a b c d :
  String.length a = String.length b -> a +++ c = b +++ d -> a = b /\ c = d.
Proof.
  revert b. induction a as [|x a IH]; intros [|y b] L H; cbn in *;
    try discriminate; [now split|].
  injection H as -> H. injection L as L.
  destruct (IH b L H) as [-> ->]. now split.
Qed.

Lemma append_cancel_r a b c : a +++ c = b +++ c -> a = b.
Proof.
  intros H. apply (append_same_length a b c c); [|exact H].
  apply (f_equal String.length) in H. rewrite !length_append in H. lia.
Qed.

(** The text after the last dot of a name determines where that dot is. *)
Lemma dotted_inj x1 e1 x2 e2 :
  str_contains "." e1 = false -> str_contains "." e2 = false ->
  x1 +++ String "." e1 = x2 +++ String "." e2 -> x1 = x2 /\ e1 = e2.
Proof.
  intros H1 H2 E.
  assert (L : String.length x1 = String.length x2).
  { pose proof (rfind_from_last "." x1 e1 0 (Z.le_refl 0) H1) as R1.
    pose proof (rfind_from_last "." x2 e2 0 (Z.le_refl 0) H2) as R2.
    rewrite E in R1. rewrite R1 in R2. lia. }
  destruct (append_same_length _ _ _ _ L E) as [-> E']. split; congruence.
Qed.

Lemma append_assoc a b c : (a +++ b) +++ c = a +++ b +++ c.
Proof. induction a as [|x a IH]; cbn; [reflexivity|]. now rewrite IH. Qed.

(** X7. Two files named [base.ext] (base and extension not empty, no dot in
    the extension) whose output paths are equal are the same file: no two
    such inputs are written to one output. *)
Theorem outputs_do_not_collide inp outp sfx file1 file2 out b1 e1 b2 e2 :
  name file1 = b1 +++ String "." e1 ->
  b1 <> "" -> e1 <> "" -> str_contains "." e1 = false ->
  name file2 = b2 +++ String "." e2 ->
  b2 <> "" -> e2 <> "" -> str_contains "." e2 = false ->
  output_file_name_of inp outp sfx file1 = Ok out ->
  output_file_name_of inp outp sfx file2 = Ok out ->
  file1 = file2.
Proof.
  intros N1 Hb1 He1 Hd1 N2 Hb2 He2 Hd2 O1 O2.
  apply output_file_name_of_inv in O1. destruct O1 as (d1 & n1 & A1 & P1 & _ & _ & E1).
  apply output_file_name_of_inv in O2. destruct O2 as (d2 & n2 & A2 & P2 & _ & _ & E2).
  assert (M1 : name file1 = n1) by (unfold name; rewrite P1; apply last_app_cons).
  assert (M2 : name file2 = n2) by (unfold name; rewrite P2; apply last_app_cons).
  rewrite N1 in M1. rewrite N2 in M2. subst n1 n2.
  destruct (stem_suffix_of_dotted b1 e1 Hb1 He1 Hd1) as [S1 X1].
  destruct (stem_suffix_of_dotted b2 e2 Hb2 He2 Hd2) as [S2 X2].
  rewrite S1, X1 in E1. rewrite S2, X2 in E2.
  rewrite E1 in E2. injection E2 as E2. apply app_inv_head in E2.
  apply app_inj_tail in E2. destruct E2 as [-> E2].
  assert (E3 : (b1 +++ "_" +++ sfx) +++ String "." e1
               = (b2 +++ "_" +++ sfx) +++ String "." e2).
  { rewrite !append_assoc. exact E2. }
  destruct (dotted_inj _ _ _ _ Hd1 Hd2 E3) as [E4 ->].
  apply append_cancel_r in E4. subst b2.
  destruct file1 as [a1 p1], file2 as [a2 p2]. cbn in *. congruence.
Qed.

Lemma outputs_do_not_collide_witness :
  Path_of "In/sub/clip.mov" = Path_of "In/sub/clip.mov".
Proof.
  apply (outputs_do_not_collide (Path_of "In") (Path_of "Out") "wm"
           (Path_of "In/sub/clip.mov") (Path_of "In/sub/clip.mov")
           (Path_of "Out/sub/clip_wm.mov") "clip" "mov" "clip" "mov");
    try reflexivity; discriminate.
Defined.

(** ** Discovery, for every operating system *)

Lemma video_extensions_dotted pat :
  In pat video_extensions ->
  exists e, pat = String "*" (String "." e)
            /\ literal (String "." e) = true /\ str_contains "." e = false.
Proof.
  unfold video_extensions. cbn [In]. intros H.
  repeat (destruct H as [<- | H]; [eexists; repeat split; reflexivity|]).
  destruct H.
Qed.

Lemma video_extensions_distinct : NoDup video_extensions.
Proof.
  unfold video_extensions.
  repeat (constructor; [cbn [In]; intuition discriminate|]). constructor.
Qed.

Lemma flag_matches_no_pattern pat :
  In pat video_extensions -> glob_match pat "-global_quality" = false.
Proof.
  unfold video_extensions. cbn [In]. intros H.
  repeat (destruct H as [<- | H]; [reflexivity|]). destruct H.
Qed.

Lemma joinpath_relative_inj d rel1 rel2 :
  d // mkPath "" rel1 = d // mkPath "" rel2 -> rel1 = rel2.
Proof.
  unfold joinpath. cbn. intros [= H]. now apply app_inv_head in H.
Qed.

Lemma NoDup_flat_map_disjoint {A B} (f : A -> list B) l :
  NoDup l ->
  (forall x, In x l -> NoDup (f x)) ->
  (forall x y b, In x l -> In y l -> In b (f x) -> In b (f y) -> x = y) ->
  NoDup (flat_map f l).
Proof.
  induction 1 as [|x l Hx Hl IH]; intros Hf Hd; cbn; [constructor|].
  apply NoDup_app.
  - apply Hf. now left.
  - apply IH; [intros; apply Hf; now right|].
    intros y z b Hy Hz. apply Hd; now right.
  - intros b Hb Hb'. apply in_flat_map in Hb'. destruct Hb' as (y & Hy & Hby).
    assert (x = y) by (apply (Hd x y b); [now left | now right | assumption..]).
    subst y. contradiction.
Qed.

Lemma NoDup_map_filter {A B} (g : A -> B) (p : A -> bool) l :
  (forall a b, g a = g b -> a = b) -> NoDup l -> NoDup (map g (filter p l)).
Proof.
  intros Hg. induction 1 as [|x l Hx Hl IH]; cbn; [constructor|].
  destruct (p x); [|exact IH]. cbn. constructor; [|exact IH].
  intros H. apply in_map_iff in H. destruct H as (y & Hy & Hin).
  apply Hg in Hy. subst y. apply filter_In in Hin. now destruct Hin.
Qed.

Lemma concat_ends_with_last s l x :
  exists pre, String.concat s (l ++ [x]) = pre +++ x.
Proof.
  induction l as [|a l IH]; [now exists ""|].
  destruct IH as (pre & IH).
  destruct l as [|b l].
  - exists (a +++ s). cbn. now rewrite append_assoc.
  - exists (a +++ s +++ pre). cbn [app String.concat] in *.
    rewrite IH. now rewrite !append_assoc.
Qed.

Section Discovery.

Context {os : OS}.

Lemma discovered_shape f d file :
  In file (check_video_files f d video_extensions) ->
  exists dir nm pat,
    In (dir ++ [nm]) (listing f d)
    /\ file = d // mkPath "" (dir ++ [nm])
    /\ In pat video_extensions
    /\ glob_match pat nm = true
    /\ nm <> "".
Proof.
  intros Hin. unfold check_video_files, rglob in Hin.
  apply in_flat_map in Hin. destruct Hin as (pat & Hpat & Hin).
  apply in_map_iff in Hin. destruct Hin as (rel & <- & Hin).
  apply filter_In in Hin. destruct Hin as [Hrel Hm].
  destruct (exists_last (l := rel)) as (dir & nm & ->).
  { intros ->. cbn in Hm. now rewrite (video_pattern_needs_name _ Hpat) in Hm. }
  rewrite last_last in Hm.
  exists dir, nm, pat. repeat split; try assumption.
  intros ->. now rewrite (video_pattern_needs_name _ Hpat) in Hm.
Qed.

(** X8. Every path that discovery returns is the input directory joined
    with the relative path of a listed entry whose name is not empty: on it
    [relative_to] (line 89) returns that relative path and does not raise,
    and its name is the name of the entry. *)
Theorem discovered_are_below_input f d file :
  In file (check_video_files f d video_extensions) ->
  exists rel,
    In rel (listing f d)
    /\ file = d // mkPath "" rel
    /\ relative_to file d = Ok (mkPath "" rel)
    /\ name file = last rel ""
    /\ name file <> "".
Proof.
  intros H. destruct (discovered_shape _ _ _ H) as (dir & nm & pat & Hl & -> & _ & _ & Hn).
  exists (dir ++ [nm]). split; [exact Hl|]. split; [reflexivity|].
  split; [apply relative_to_join|].
  assert (E : name (d // mkPath "" (dir ++ [nm])) = nm).
  { unfold name, joinpath. cbn. apply last_app_cons. }
  rewrite E, last_last. now split.
Qed.

(** X9. When the listing of the input directory names each entry once,
    discovery with the twelve patterns returns each path once: no name
    matches two of the patterns, so no file is handled twice. *)
Theorem discovery_has_no_duplicates f d :
  NoDup (listing f d) -> NoDup (check_video_files f d video_extensions).
Proof.
  intros Hl. unfold check_video_files.
  apply NoDup_flat_map_disjoint.
  - apply video_extensions_distinct.
  - intros pat _. unfold rglob. apply NoDup_map_filter; [|exact Hl].
    intros a b. apply joinpath_relative_inj.
  - intros p1 p2 file H1 H2 F1 F2. unfold rglob in F1, F2.
    apply in_map_iff in F1. destruct F1 as (r1 & E1 & F1).
    apply in_map_iff in F2. destruct F2 as (r2 & E2 & F2).
    rewrite <- E2 in E1. apply joinpath_relative_inj in E1. subst r2.
    apply filter_In in F1. destruct F1 as [_ M1].
    apply filter_In in F2. destruct F2 as [_ M2].
    destruct (video_extensions_dotted _ H1) as (e1 & -> & L1 & D1).
    destruct (video_extensions_dotted _ H2) as (e2 & -> & L2 & D2).
    apply (glob_star_literal _ _ L1) in M1. destruct M1 as (b1 & M1).
    apply (glob_star_literal _ _ L2) in M2. destruct M2 as (b2 & M2).
    rewrite M1 in M2. destruct (dotted_inj _ _ _ _ D1 D2 M2) as [_ ->].
    reflexivity.
Qed.

(** X10. The path string of a discovered file ends with the text after the
    star of one of the patterns, so it is never the string
    [-global_quality]; with a codec that passed [validate_video_codec] and a
    bitrate that is not empty, the command built for it has [-b:v] and the
    bitrate at slots 9 and 10 and every other slot as without bitrate. *)
Theorem discovered_file_swaps_in_place f d file out esc color size codec q b :
  In file (check_video_files f d video_extensions) ->
  validate_video_codec codec = Ok tt ->
  b <> "" ->
  (exists pat, In pat video_extensions /\ glob_match pat (str file) = true)
  /\ str file <> "-global_quality"
  /\ build_ffmpeg_command file out esc color size codec q (Some b)
     = Ok ["ffmpeg"; "-hwaccel_output_format"; "qsv"; "-i"; str file; "-vf";
           drawtext_filter esc color size; "-c:v"; codec; "-b:v"; b;
           "-c:a"; "copy"; "-y"; str out].
Proof.
  intros Hin Hc Hb.
  destruct (discovered_shape _ _ _ Hin) as (dir & nm & pat & _ & -> & Hpat & Hm & Hn).
  destruct (video_extensions_shape _ Hpat) as (ext & -> & Hl).
  apply (glob_star_literal _ _ Hl) in Hm. destruct Hm as (base & ->).
  assert (Hs : exists pre, str (d // mkPath "" (dir ++ [base +++ ext])) = pre +++ ext).
  { unfold str, joinpath. cbn [anchor parts String.eqb].
    rewrite app_assoc.
    destruct (concat_ends_with_last "/" (parts d ++ dir) (base +++ ext)) as (pre & ->).
    destruct (String.eqb_spec (anchor d +++ pre +++ base +++ ext) "") as [E|_].
    - exfalso. apply Hn. apply (f_equal String.length) in E.
      rewrite !length_append in E. cbn in E.
      destruct base; [destruct ext; [reflexivity | cbn in E; lia] | cbn in E; lia].
    - exists (anchor d +++ pre +++ base). now rewrite !append_assoc. }
  assert (Hg : glob_match (String "*" ext) (str (d // mkPath "" (dir ++ [base +++ ext])))
               = true).
  { apply (glob_star_literal _ _ Hl). destruct Hs as (pre & ->). now exists pre. }
  assert (Hf : str (d // mkPath "" (dir ++ [base +++ ext])) <> "-global_quality").
  { intros E. rewrite E in Hg. now rewrite (flag_matches_no_pattern _ Hpat) in Hg. }
  split; [now exists (String "*" ext)|]. split; [exact Hf|].
  rewrite (build_with_bitrate _ _ _ _ _ _ _ _ Hb).
  rewrite (eqb_neq_false _ _ Hf), (eqb_neq_false _ _ (codec_is_not_a_flag _ Hc)).
  reflexivity.
Qed.

End Discovery.

Lemma sample_listing_distinct :
  NoDup (@listing (TreeOS failing_encoder) sample_tree (Path_of "In")).
Proof.
  vm_compute. repeat (constructor; [cbn [In]; intuition discriminate|]). constructor.
Qed.

Lemma discovered_are_below_input_witness :
  exists rel,
    In rel (@listing (TreeOS failing_encoder) sample_tree (Path_of "In"))
    /\ Path_of "In/sub/clip.mov" = Path_of "In" // mkPath "" rel
    /\ relative_to (Path_of "In/sub/clip.mov") (Path_of "In") = Ok (mkPath "" rel)
    /\ name (Path_of "In/sub/clip.mov") = last rel ""
    /\ name (Path_of "In/sub/clip.mov") <> "".
Proof.
  apply (@discovered_are_below_input (TreeOS failing_encoder) sample_tree
           (Path_of "In") (Path_of "In/sub/clip.mov")).
  vm_compute. tauto.
Defined.

Lemma discovery_has_no_duplicates_witness :
  NoDup (@check_video_files (TreeOS failing_encoder) sample_tree (Path_of "In")
           video_extensions).
Proof.
  apply (@discovery_has_no_duplicates (TreeOS failing_encoder) sample_tree
           (Path_of "In")).
  vm_compute. repeat (constructor; [cbn [In]; intuition discriminate|]). constructor.
Defined.

Lemma discovered_file_swaps_in_place_witness :
  build_ffmpeg_command (Path_of "In/sub/clip.mov") (Path_of "Out/sub/clip_wm.mov")
    "f.ttf" "white" 30 "hevc_qsv" 18 (Some "2M")
  = Ok ["ffmpeg"; "-hwaccel_output_format"; "qsv"; "-i"; "In/sub/clip.mov"; "-vf";
        drawtext_filter "f.ttf" "white" 30; "-c:v"; "hevc_qsv"; "-b:v"; "2M";
        "-c:a"; "copy"; "-y"; "Out/sub/clip_wm.mov"].
Proof.
  apply (@discovered_file_swaps_in_place (TreeOS failing_encoder) sample_tree
           (Path_of "In") (Path_of "In/sub/clip.mov") (Path_of "Out/sub/clip_wm.mov")
           "f.ttf" "white" 30 "hevc_qsv" 18 "2M");
    [vm_compute; tauto | reflexivity | discriminate].
Defined.

(** ** Every run of [main] *)

Lemma spawned_printed tr s : spawned (tr ++ [Printed s]) = spawned tr.
Proof. rewrite spawned_app. cbn. apply app_nil_r. Qed.

Lemma spawned_one tr c : spawned (tr ++ [Spawned c]) = spawned tr ++ [c].
Proof. now rewrite spawned_app. Qed.

Section EveryRun.

Context {os : OS}.

(** The loop never calls [exit]; what it spawns are commands of fifteen
    arguments for [ffmpeg], at most one per file. *)
Lemma for_each_outcome inp outp sfx esc color size codec q bitrate total files :
  forall idx w r,
    for_each (enumerate files idx)
      (process_file inp outp sfx esc color size codec q bitrate total) w = r ->
    (forall c w', r <> Exit c w')
    /\ exists cmds,
         spawned (trace (final r)) = spawned (trace w) ++ cmds
         /\ Forall (fun c => hd_error c = Some "ffmpeg" /\ List.length c = 15) cmds
         /\ List.length cmds <= List.length files.
Proof.
  induction files as [|file files IH]; intros idx w r Hr.
  - cbn in Hr. subst r. split; [discriminate|]. exists []. cbn. rewrite app_nil_r.
    repeat split; [constructor | lia].
  - cbn [enumerate for_each] in Hr. unfold bind at 1 in Hr.
    unfold process_file in Hr.
    unfold bind, lift, mkdir, print, subprocess_run in Hr.
    assert (Hstop : forall e w0, r = Throw e w0 -> trace w0 = trace w ->
              (forall c w', r <> Exit c w')
              /\ exists cmds,
                   spawned (trace (final r)) = spawned (trace w) ++ cmds
                   /\ Forall (fun c => hd_error c = Some "ffmpeg" /\ List.length c = 15)
                        cmds
                   /\ List.length cmds <= List.length (file :: files)).
    { intros e w0 -> Ht. split; [discriminate|]. exists []. cbn [final].
      rewrite Ht, app_nil_r. repeat split; [constructor | cbn; lia]. }
    destruct (output_file_name_of inp outp sfx file) as [out|e];
      [|now apply (Hstop e w)].
    destruct (mkdir_parents (fs w) (parent out)) as [f1|e];
      [|now apply (Hstop e w)].
    destruct (build_total file out esc color size codec q bitrate) as (cmd & Hcmd).
    pose proof (build_index_shape file out esc color size codec q bitrate cmd Hcmd)
      as Hshape.
    rewrite Hcmd in Hr. cbn [fs trace] in Hr.
    destruct (spawn f1 cmd) as [[f2 status]|e].
    + destruct (IH _ _ _ Hr) as (Hex & cmds & Hs & Hall & Hlen).
      split; [exact Hex|].
      exists (cmd :: cmds). rewrite Hs. cbn [trace].
      rewrite spawned_one, spawned_printed, <- app_assoc.
      repeat split; [constructor; assumption | cbn; lia].
    + subst r. split; [discriminate|]. exists []. cbn [final trace].
      rewrite spawned_printed, app_nil_r. repeat split; [constructor | cbn; lia].
Qed.

(** The ways [main] can go: a refused parameter (or an error of the
    creation of the output root that line 68 catches), an error of that
    creation that it does not catch, an empty discovery, or the loop
    followed by the completion line. *)
Lemma main_cases (args : Args) (w : World) :
  let inp := Path_of args.(input_directory) in
  let outp := Path_of args.(output_directory) in
  (exists msg, main args w = Exit 1 (mkWorld (fs w) (trace w ++ [Printed msg])))
  \/ (exists e, mkdir_parents (fs w) outp = Raise e /\ main args w = Throw e w)
  \/ (exists fs1 msg,
        mkdir_parents (fs w) outp = Ok fs1
        /\ main args w = Exit 1 (mkWorld fs1 (trace w ++ [Printed msg])))
  \/ exists fs1 found,
       mkdir_parents (fs w) outp = Ok fs1
       /\ main args w
          = bind
              (for_each (enumerate (check_video_files fs1 inp video_extensions) 1)
                 (process_file inp outp args.(output_suffix)
                    (escaped_font_file_of (Path_of args.(font_file)))
                    args.(font_color) args.(font_size) args.(video_codec)
                    args.(video_quality) args.(bitrate)
                    (List.length (check_video_files fs1 inp video_extensions))))
              (fun _ => print "所有视频文件处理完成")
              (mkWorld fs1 (trace w ++ [Printed found])).
Proof.
  intros inp outp.
  unfold main. cbv zeta.
  unfold bind at 1. unfold try_except, bind, lift, ensure_font_file_exists,
    ensure_output_directory_exists, mkdir, validate_video_quality,
    validate_video_codec.
  destruct (negb ((0 <=? video_quality args)%Z && (video_quality args <=? 51)%Z));
    [left; eexists; reflexivity|].
  destruct (negb (existsb (String.eqb (video_codec args)) ["hevc_qsv"; "h264_qsv"]));
    [left; eexists; reflexivity|].
  destruct (path_exists (fs w) (Path_of (font_file args)));
    [|left; eexists; reflexivity].
  cbn [negb fs trace]. fold inp outp.
  destruct (mkdir_parents (fs w) outp) as [fs1|e].
  - cbn [fs trace].
    destruct (Nat.eqb (List.length (check_video_files fs1 inp video_extensions)) 0).
    + right. right. left. exists fs1. eexists. split; reflexivity.
    + right. right. right. exists fs1. eexists. split; reflexivity.
  - destruct (caught e) eqn:Hc.
    + left. eexists. reflexivity.
    + right. left. exists e. split; reflexivity.
Qed.

(** X11. Every run of [main] ends with status 0 or 1, and it ends with
    status 0 only after printing the completion line last. *)
Theorem main_exit_status_zero_or_one (args : Args) (w : World) :
  (exit_status (main args w) = 0%Z
   /\ exists tr, trace (final (main args w)) = tr ++ [Printed "所有视频文件处理完成"])
  \/ exit_status (main args w) = 1%Z.
Proof.
  destruct (main_cases args w)
    as [(msg & ->) | [(e & _ & ->) | [(fs1 & msg & _ & ->)
                                         | (fs1 & found & _ & ->)]]];
    [right; reflexivity | right; reflexivity | right; reflexivity |].
  unfold bind.
  match goal with
  | |- context [for_each ?l ?b ?w0] =>
      destruct (for_each l b w0) as [[] w' | c w' | e w'] eqn:E
  end.
  - left. split; [reflexivity|]. eexists. reflexivity.
  - exfalso.
    exact (proj1 (for_each_outcome _ _ _ _ _ _ _ _ _ _ _ _ _ _ E) c w' eq_refl).
  - right. reflexivity.
Qed.

(** X12. In every run of [main], what is spawned is a list of commands of
    fifteen arguments whose program is [ffmpeg], and there are at most as
    many of them as discovery returns files on the file system with the
    output root ensured (none when the output root cannot be made). *)
Theorem main_spawns_only_ffmpeg (args : Args) (w : World) :
  exists cmds,
    spawned (trace (final (main args w))) = spawned (trace w) ++ cmds
    /\ Forall (fun c => hd_error c = Some "ffmpeg" /\ List.length c = 15) cmds
    /\ List.length cmds
       <= match mkdir_parents (fs w) (Path_of args.(output_directory)) with
          | Ok fs1 =>
              List.length
                (check_video_files fs1 (Path_of args.(input_directory))
                   video_extensions)
          | Raise _ => 0
          end.
Proof.
  destruct (main_cases args w)
    as [(msg & ->) | [(e & _ & ->) | [(fs1 & msg & _ & ->)
                                         | (fs1 & found & Hmk & ->)]]].
  - exists []. cbn [final trace]. rewrite spawned_printed, app_nil_r.
    repeat split; [constructor | cbn; lia].
  - exists []. cbn [final trace]. rewrite app_nil_r.
    repeat split; [constructor | cbn; lia].
  - exists []. cbn [final trace]. rewrite spawned_printed, app_nil_r.
    repeat split; [constructor | cbn; lia].
  - rewrite Hmk. unfold bind.
    match goal with
    | |- context [for_each ?l ?b ?w0] =>
        destruct (for_each l b w0) as [[] w' | c w' | e w'] eqn:E
    end;
      destruct (for_each_outcome _ _ _ _ _ _ _ _ _ _ _ _ _ _ E)
        as (_ & cmds & Hs & Hall & Hlen);
      exists cmds; cbn [final trace print fs] in *;
      rewrite ?spawned_printed, Hs; cbn [trace]; rewrite spawned_printed;
      repeat split; assumption.
Qed.

(** X13. When the validation passes (the output root made, giving [fs1]) and
    discovery returns at least one file, none with a name that starts with a
    dot, a suffix that holds a path separator stops the run at the first
    file: [with_name] raises [ValueError], nothing was spawned, no directory
    was made beyond the output root, and the process ends with status 1.
    (For a name that starts with a dot, such as [.mp4], Python 3.11 and
    earlier let some of these suffixes through.) *)
Theorem separator_in_suffix_stops_run (args : Args) (w : World) (fs1 : FS) :
  let inp := Path_of args.(input_directory) in
  let video_files := check_video_files fs1 inp video_extensions in
  validate_video_quality args.(video_quality) = Ok tt ->
  validate_video_codec args.(video_codec) = Ok tt ->
  path_exists (fs w) (Path_of args.(font_file)) = true ->
  mkdir_parents (fs w) (Path_of args.(output_directory)) = Ok fs1 ->
  video_files <> [] ->
  forallb (fun file => negb (starts_with_dot (name file))) video_files = true ->
  str_contains sep args.(output_suffix) = true ->
  exists msg,
    main args w
    = Throw (ValueError msg)
        (mkWorld fs1
           (trace w
              ++ [Printed ("在输入目录 '" +++ str inp +++ "' 中找到 "
                             +++ str_nat (List.length video_files) +++ " 个视频文件")]))
    /\ exit_status (main args w) = 1%Z
    /\ spawned (trace (final (main args w))) = spawned (trace w).
Proof.
  intros inp video_files Hq Hc Hf Hmk Hne _ Hsep.
  assert (Hfirst : exists v vs dir nm,
             video_files = v :: vs /\ v = inp // mkPath "" (dir ++ [nm]) /\ nm <> "").
  { destruct video_files as [|v vs] eqn:Hv; [now elim Hne|].
    assert (Hin : In v (check_video_files fs1 inp video_extensions))
      by (fold video_files; rewrite Hv; now left).
    destruct (discovered_shape _ _ _ Hin) as (dir & nm & pat & _ & E & _ & _ & Hn).
    now exists v, vs, dir, nm. }
  destruct Hfirst as (v & vs & dir & nm & Hv & -> & Hn).
  assert (Hout : output_file_name_of inp (Path_of args.(output_directory))
                   args.(output_suffix) (inp // mkPath "" (dir ++ [nm]))
                 = Raise (ValueError (invalid_name (name_stem nm +++ "_"
                                        +++ args.(output_suffix) +++ name_suffix nm)))).
  { unfold output_file_name_of. rewrite relative_to_join. cbn [rbind].
    unfold with_name, stem, suffix, name. cbn [parts anchor].
    rewrite last_last, (eqb_neq_false _ _ Hn).
    unfold valid_name. rewrite !str_contains_app, Hsep.
    rewrite !orb_true_r, !andb_false_r. reflexivity. }
  assert (Hm : main args w
               = Throw (ValueError (invalid_name (name_stem nm +++ "_"
                                      +++ args.(output_suffix) +++ name_suffix nm)))
                   (mkWorld fs1
                      (trace w
                         ++ [Printed ("在输入目录 '" +++ str inp +++ "' 中找到 "
                                        +++ str_nat (List.length video_files)
                                        +++ " 个视频文件")]))).
  { unfold main. cbv zeta.
    unfold bind at 1. unfold try_except, bind, lift, ensure_font_file_exists,
      ensure_output_directory_exists, mkdir.
    rewrite Hq, Hc, Hf. cbn [negb fs trace]. rewrite Hmk. cbn [fs trace].
    fold inp. fold video_files. rewrite Hv.
    cbn [List.length Nat.eqb enumerate for_each]. unfold ret, print at 1.
    cbn [fs trace]. unfold bind at 1. unfold process_file, bind, lift.
    rewrite Hout. reflexivity. }
  eexists. split; [exact Hm|]. rewrite Hm. split; [reflexivity|].
  cbn [final trace]. apply spawned_printed.
Qed.

End EveryRun.

Lemma separator_in_suffix_stops_run_witness :
  exists msg,
    @main (TreeOS failing_encoder) (sample_args "a/b" 18)
      (@mkWorld (TreeOS failing_encoder) sample_tree [])
    = Throw (ValueError msg)
        (@mkWorld (TreeOS failing_encoder) sample_tree_out
           [Printed "在输入目录 'In' 中找到 3 个视频文件"])
    /\ exit_status
         (@main (TreeOS failing_encoder) (sample_args "a/b" 18)
            (@mkWorld (TreeOS failing_encoder) sample_tree [])) = 1%Z
    /\ spawned
         (trace (final (@main (TreeOS failing_encoder) (sample_args "a/b" 18)
                          (@mkWorld (TreeOS failing_encoder) sample_tree []))))
       = spawned [].
Proof.
  apply (@separator_in_suffix_stops_run (TreeOS failing_encoder)
           (sample_args "a/b" 18) (@mkWorld (TreeOS failing_encoder) sample_tree [])
           sample_tree_out);
    [reflexivity | reflexivity | reflexivity | reflexivity | vm_compute; discriminate
    | reflexivity | reflexivity].
Defined.

(** ** The status of the encoder *)

Lemma for_each_same_end enc1 enc2 inp outp sfx esc color size codec q bitrate total files :
  (forall t argv, rmap fst (enc1 t argv) = rmap fst (enc2 t argv)) ->
  forall idx (t : node) tr,
    same_end
      (@for_each (TreeOS enc1) _ (enumerate files idx)
         (@process_file (TreeOS enc1) inp outp sfx esc color size codec q bitrate total)
         (@mkWorld (TreeOS enc1) t tr))
      (@for_each (TreeOS enc2) _ (enumerate files idx)
         (@process_file (TreeOS enc2) inp outp sfx esc color size codec q bitrate total)
         (@mkWorld (TreeOS enc2) t tr)).
Proof.
  intros Henc. induction files as [|file files IH]; intros idx t tr.
  - cbn. now split.
  - cbn [enumerate for_each]. unfold bind at 1 2. unfold process_file.
    unfold bind, lift, mkdir, print, subprocess_run.
    destruct (output_file_name_of inp outp sfx file) as [out|e]; [|cbn; now repeat split].
    cbn [fs trace spawn mkdir_parents TreeOS].
    destruct (mkdirs (str (parent out)) (parts (parent out)) t) as [t0|e];
      [|cbn; now repeat split].
    destruct (build_ffmpeg_command file out esc color size codec q bitrate)
      as [cmd|e]; [|cbn; now repeat split].
    cbn [fs trace].
    specialize (Henc t0 cmd).
    destruct (enc1 t0 cmd) as [[t1 s1]|e1]; destruct (enc2 t0 cmd) as [[t2 s2]|e2];
      cbn in Henc; try discriminate.
    + injection Henc as <-. apply IH.
    + injection Henc as <-. cbn. now repeat split.
Qed.

Lemma main_same_end enc1 enc2 args (t : node) tr :
  (forall t argv, rmap fst (enc1 t argv) = rmap fst (enc2 t argv)) ->
  same_end (@main (TreeOS enc1) args (@mkWorld (TreeOS enc1) t tr))
           (@main (TreeOS enc2) args (@mkWorld (TreeOS enc2) t tr)).
Proof.
  intros Henc.
  unfold main. cbv zeta.
  unfold try_except, bind, lift, ensure_font_file_exists,
    ensure_output_directory_exists, mkdir, validate_video_quality,
    validate_video_codec.
  destruct (negb ((0 <=? video_quality args)%Z && (video_quality args <=? 51)%Z));
    [cbn; now repeat split|].
  destruct (negb (existsb (String.eqb (video_codec args)) ["hevc_qsv"; "h264_qsv"]));
    [cbn; now repeat split|].
  cbn [fs trace path_exists mkdir_parents TreeOS].
  destruct (lookup (parts (Path_of (font_file args))) t);
    [|cbn; now repeat split].
  cbn [negb fs trace].
  destruct (mkdirs (str (Path_of (output_directory args)))
              (parts (Path_of (output_directory args))) t) as [t0|e];
    [|destruct (caught e); cbn; now repeat split].
  cbn [fs trace].
  change (@check_video_files (TreeOS enc1)) with (@check_video_files (TreeOS enc2)).
  destruct (Nat.eqb _ 0); [cbn; now repeat split|].
  unfold ret, print at 1 3. cbn [fs trace].
  match goal with
  | |- context [@for_each (TreeOS enc1) _ (enumerate ?l ?i) (process_file ?a ?b ?c ?d ?e ?f ?g ?h ?k ?n) (mkWorld ?t0 ?tr0)] =>
      pose proof (for_each_same_end enc1 enc2 a b c d e f g h k n l Henc i t0 tr0) as H
  end.
  match type of H with
  | same_end ?r1 ?r2 =>
      destruct r1 as [[] w1 | c1 w1 | e1 w1]; destruct r2 as [[] w2 | c2 w2 | e2 w2]
  end; cbn in H |- *; try contradiction; try exact H.
  destruct H as [Hf Ht]. split; [exact Hf|]. now rewrite Ht.
Qed.

(** X14. The status that the encoder returns is never looked at: on a tree,
    two encoders that, on every call, both fail to start with the same
    error or both run and change the tree in the same way, whatever
    statuses they return, give runs of [main] with the same exit status,
    the same final tree and the same trace. *)
Theorem encoder_status_is_ignored enc1 enc2 args (t : node) tr :
  (forall t argv, rmap fst (enc1 t argv) = rmap fst (enc2 t argv)) ->
  exit_status (@main (TreeOS enc1) args (@mkWorld (TreeOS enc1) t tr))
  = exit_status (@main (TreeOS enc2) args (@mkWorld (TreeOS enc2) t tr))
  /\ @fs (TreeOS enc1) (final (@main (TreeOS enc1) args (@mkWorld (TreeOS enc1) t tr)))
     = @fs (TreeOS enc2) (final (@main (TreeOS enc2) args (@mkWorld (TreeOS enc2) t tr)))
  /\ trace (final (@main (TreeOS enc1) args (@mkWorld (TreeOS enc1) t tr)))
     = trace (final (@main (TreeOS enc2) args (@mkWorld (TreeOS enc2) t tr))).
Proof.
  intros Henc. pose proof (main_same_end enc1 enc2 args t tr Henc) as H.
  destruct (@main (TreeOS enc1) args (@mkWorld (TreeOS enc1) t tr))
    as [[] w1 | c1 w1 | e1 w1];
    destruct (@main (TreeOS enc2) args (@mkWorld (TreeOS enc2) t tr))
      as [[] w2 | c2 w2 | e2 w2];
    cbn in H |- *; try contradiction; intuition congruence.
Qed.

Lemma encoder_status_is_ignored_witness :
  exit_status (@main (TreeOS failing_encoder) (sample_args "wm" 18)
                 (@mkWorld (TreeOS failing_encoder) sample_tree []))
  = exit_status (@main (TreeOS quiet_encoder) (sample_args "wm" 18)
                   (@mkWorld (TreeOS quiet_encoder) sample_tree [])).
Proof.
  apply (encoder_status_is_ignored failing_encoder quiet_encoder
           (sample_args "wm" 18) sample_tree []).
  reflexivity.
Defined.
